(** * SC.LinkView: computed display properties and the render / update pair

    A shallow embedding of [frameworks/desktop/views/link_view.js].

    - [JS]       the JavaScript values the view's properties range over;
    - [LinkView] the computed properties [displayBody] and [hreflang] and
                 the two layer methods [render] (first rendering, through a
                 render context) and [update] (later renderings, through a
                 jQuery handle on the live element);
    - [Host]     the effect of the calls those methods issue on an element;
    - [Cache]    the memoising property store behind [.property(..).cacheable()].
*)

From Stdlib Require Import Ascii String List Bool Arith Lia.
From stdpp Require Import base option list strings gmap fin_maps.

Import ListNotations.
Local Open Scope string_scope.
Local Open Scope list_scope.

(* ------------------------------------------------------------------------ *)
(** ** JavaScript values *)

Module JS.

(** The values a view property holds: a string, a sequence of strings, a
    boolean, [null], or nothing at all ([undefined]). *)
Inductive value : Type :=
| VUndefined
| VNull
| VBool (b : bool)
| VStr (s : string)
| VArr (items : list string).

#[global] Instance value_eq_dec : EqDecision value.
Proof. solve_decision. Defined.

(** ToBoolean. *)
Definition truthy (v : value) : bool :=
  match v with
  | VUndefined | VNull => false
  | VBool b => b
  | VStr s => negb (String.eqb s "")
  | VArr _ => true
  end.

(** [a && b] and [a || b] return one of their operands. *)
Definition js_and (a b : value) : value := if truthy a then b else a.
Definition js_or (a b : value) : value := if truthy a then a else b.

Definition is_string (v : value) : bool :=
  match v with VStr _ => true | _ => false end.

(** [value + ""] for the values that are not [null] or [undefined]. *)
Definition to_text (v : value) : string :=
  match v with
  | VUndefined => "undefined"
  | VNull => "null"
  | VBool true => "true"
  | VBool false => "false"
  | VStr s => s
  | VArr items => String.concat "," items
  end.

(** [v.join(' ')]: only arrays have the method, the call throws a
    TypeError ([None]) on every other value. *)
Definition join (v : value) : option value :=
  match v with
  | VArr items => Some (VStr (String.concat " " items))
  | _ => None
  end.

(** An object used as a record of named properties; [this.get(key)] on a
    key that was never set reads [undefined]. *)
Definition get (this : gmap string value) (key : string) : value :=
  default VUndefined (this !! key).

End JS.

Import JS.

(* ------------------------------------------------------------------------ *)
(** ** The view *)

Module LinkView.

Section Methods.

(** [SC.String.loc], [SC.Locale.currentLocale.language] and
    [SC.RenderContext.escapeHTML] live outside this file. *)
Variable loc : value -> value.
Variable currentLocale_language : value.
Variable escapeHTML : value -> value.

(** [displayBody: function () { ... }.property('body', 'localize')] *)
Definition displayBody (this : gmap string value) : value :=
  let ret := get this "body" in
  if truthy (js_and ret (get this "localize"))
  then loc ret
  else js_or ret (VStr "").

(** [hreflang: function () { ... }.property('language', 'localize')] *)
Definition hreflang (this : gmap string value) : value :=
  let language := get this "language" in
  let ret := js_or language currentLocale_language in
  ret.

(** The calls [render] makes on its context. *)
Inductive context_call : Type :=
| SetAttr (attrs : list (string * value))
| Push (text : value).

(** The calls [update] makes on the jQuery handle. *)
Inductive jq_call : Type :=
| Attr (attribute : string) (v : value)
| Html (v : value).

(** [if (x && escapeHTML) { x = SC.RenderContext.escapeHTML(x); }] *)
Definition escaped (x flag : value) : value :=
  if truthy (js_and x flag) then escapeHTML x else x.

(** [x ? x.join(' ') : null] *)
Definition joined (x : value) : option value :=
  if truthy x then join x else Some VNull.

(** [render: function (context)]; [None] when building the attribute
    hash throws, before the context is touched. *)
Definition render (this : gmap string value) : option (list context_call) :=
  let displayBody := get this "displayBody" in
  let displayToolTip := get this "displayToolTip" in
  let fileName := get this "fileName" in
  let escapeHTML := get this "escapeHTML" in
  let href := get this "href" in
  let hreflang := get this "hreflang" in
  let ping := get this "ping" in
  let rel := get this "rel" in
  let target := get this "target" in
  let type := get this "type" in
  let displayToolTip := escaped displayToolTip escapeHTML in
  ping' ← joined ping;
  rel' ← joined rel;
  let displayBody := escaped displayBody escapeHTML in
  Some [ SetAttr [ ("download", fileName);
                   ("href", href);
                   ("hreflang", hreflang);
                   ("ping", ping');
                   ("rel", rel');
                   ("target", target);
                   ("title", displayToolTip);
                   ("type", type) ];
         Push displayBody ].

(** [update: function (jqEl)] *)
Definition update (this : gmap string value) : list jq_call :=
  let displayBody := get this "displayBody" in
  let displayToolTip := get this "displayToolTip" in
  let fileName := get this "fileName" in
  let escapeHTML := get this "escapeHTML" in
  let href := get this "href" in
  let hreflang := get this "hreflang" in
  let displayToolTip := escaped displayToolTip escapeHTML in
  let displayBody := escaped displayBody escapeHTML in
  [ Attr "download" fileName;
    Attr "href" href;
    Attr "hreflang" hreflang;
    Attr "title" displayToolTip;
    Html displayBody ].

End Methods.

(** What a call on the jQuery handle is aimed at: an attribute, or the
    element's content. *)
Definition target_of (c : jq_call) : string :=
  match c with
  | Attr attribute _ => attribute
  | Html _ => "html"
  end.

(** The value a call hands to the element. *)
Definition payload_of (c : jq_call) : value :=
  match c with
  | Attr _ v => v
  | Html v => v
  end.

(** The fixed table from what [update] writes to the display property it
    is read from. *)
Definition field_table : list (string * string) :=
  [ ("download", "fileName");
    ("href", "href");
    ("hreflang", "hreflang");
    ("title", "displayToolTip");
    ("html", "displayBody") ].

(** The properties documented as not updateable after the layer exists. *)
Definition set_once : list string :=
  [ "tagName"; "classNames"; "ping"; "rel"; "target"; "type" ].

(** The attributes those properties are rendered into. *)
Definition set_once_attributes : list string :=
  [ "class"; "ping"; "rel"; "target"; "type" ].

End LinkView.

Import LinkView.

(* ------------------------------------------------------------------------ *)
(** ** The element behind the view *)

Module Host.

(** Modelled from the spec: the live rendered artifact. Neither
    SC.RenderContext nor the jQuery handle is part of this file; the
    element is kept as its attribute mapping and its content, both as
    the text that was handed to the host. *)
Record Node : Type := {
  attributes : gmap string string;
  content : string
}.

Definition empty_element : Node := {| attributes := ∅; content := "" |}.

Definition nullish (v : value) : bool :=
  match v with VUndefined | VNull => true | _ => false end.

(** The text an attribute gets from a value; [null] and [undefined] stand
    for no attribute. *)
Definition attr_text (v : value) : option string :=
  if nullish v then None else Some (to_text v).

(** Modelled from the spec: the host's set-attribute ([Some]) and
    remove-attribute ([None]) primitives. *)
Definition set_attribute (k : string) (o : option string) (n : Node) : Node :=
  {| attributes := partial_alter (fun _ => o) k (attributes n);
     content := content n |}.

(** Modelled from the spec: the host's set-text-content primitive. *)
Definition set_content (text : string) (n : Node) : Node :=
  {| attributes := attributes n; content := text |}.

(** Modelled from the spec: the [emit] sink of the cold path, missing
    here as SC.RenderContext. [setAttr] stores every pair of the hash, a
    [null] value clearing the attribute; [push] appends to the content. *)
Definition context_step (n : Node) (c : context_call) : Node :=
  match c with
  | SetAttr attrs =>
      fold_left (fun n kv => set_attribute (fst kv) (attr_text (snd kv)) n) attrs n
  | Push text =>
      set_content (content n +:+ (if nullish text then "" else to_text text)) n
  end.

Definition element_of (calls : list context_call) : Node :=
  fold_left context_step calls empty_element.

(** Modelled from the spec: the per-attribute mutation operations of the
    warm path, missing here as the jQuery handle. [attr(k, v)] and
    [html(v)] write unless [v] is [undefined], which turns the call into a
    read; [attr(k, null)] removes the attribute. *)
Definition jq_step (n : Node) (c : jq_call) : Node :=
  match c with
  | Attr k VUndefined => n
  | Attr k v => set_attribute k (attr_text v) n
  | Html VUndefined => n
  | Html v => set_content (if nullish v then "" else to_text v) n
  end.

Definition jq_run (calls : list jq_call) (n : Node) : Node :=
  fold_left jq_step calls n.

(** What an attribute holds after [attr(k, v)], given what it held. *)
Definition written (v : value) (old : option string) : option string :=
  match v with
  | VUndefined => old
  | _ => attr_text v
  end.

(** Modelled from the spec: the host environment's text-escaping
    function, missing here as SC.RenderContext.escapeHTML. The markup
    characters of a text become entities; the spec gives no meaning to
    escaping something that is not text, which is left as it is. *)
Fixpoint escape_text (s : string) : string :=
  match s with
  | EmptyString => EmptyString
  | String c rest =>
      (if Ascii.eqb c "&" then "&amp;"
       else if Ascii.eqb c "<" then "&lt;"
       else if Ascii.eqb c ">" then "&gt;"
       else String c EmptyString) +:+ escape_text rest
  end.

Definition escapeHTML (v : value) : value :=
  match v with
  | VStr s => VStr (escape_text s)
  | _ => v
  end.

End Host.

(* ------------------------------------------------------------------------ *)
(** ** The property store *)

Module Cache.

(** Modelled from the spec: a Computed Entry as it is declared, by
    [function () {...}.property(dependencies).cacheable()]. SC.Object and
    SC.Observable, which keep such entries, are not part of this file. *)
Record Entry : Type := {
  name : string;
  dependencies : list string;
  compute : gmap string value -> value
}.

(** Modelled from the spec: the memo of a Computed Entry, [cachedValue]
    ([None] is UNSET) and [valid]. *)
Record Slot : Type := {
  cachedValue : option value;
  valid : bool
}.

(** Modelled from the spec: the store of one view. The raw properties,
    the memo of every entry keyed by name, and the names of the entries
    whose [compute] ran, oldest first. *)
Record Store : Type := {
  raw : gmap string value;
  slots : gmap string Slot;
  invocations : list string
}.

Definition fresh (properties : gmap string value) : Store :=
  {| raw := properties; slots := ∅; invocations := [] |}.

(** The memoised value of [n], if it may be handed out. *)
Definition cached (st : Store) (n : string) : option value :=
  match slots st !! n with
  | Some {| cachedValue := Some v; valid := true |} => Some v
  | _ => None
  end.

Definition remember (n : string) (v : value) (st : Store) : Store :=
  {| raw := raw st;
     slots := <[n := {| cachedValue := Some v; valid := true |}]> (slots st);
     invocations := invocations st ++ [n] |}.

(** Reads a list of names one after the other with the reader [g]. *)
Fixpoint get_all (g : Store -> string -> value * Store)
    (names : list string) (st : Store) : list value * Store :=
  match names with
  | [] => ([], st)
  | n :: rest =>
      let '(v, st1) := g st n in
      let '(vs, st2) := get_all g rest st1 in
      (v :: vs, st2)
  end.

(** The object [compute] sees: its dependencies with their values. *)
Definition scope (names : list string) (vs : list value) : gmap string value :=
  list_to_map (zip names vs).

(** Modelled from the spec: [get(name)]. The entries are kept newest
    first and an entry depends on raw properties and on entries declared
    before it, so the dependency edges cannot form a cycle. A name that
    is no entry is a raw property. *)
Fixpoint get (entries : list Entry) (st : Store) (n : string) : value * Store :=
  match entries with
  | [] => (JS.get (raw st) n, st)
  | e :: older =>
      if String.eqb (name e) n then
        match cached st n with
        | Some v => (v, st)
        | None =>
            let '(vs, st1) := get_all (get older) (dependencies e) st in
            let v := compute e (scope (dependencies e) vs) in
            (v, remember n v st1)
        end
      else get older st n
  end.

(** Modelled from the spec: the entries a write to [p] reaches along the
    dependency edges, directly or through other entries. *)
Fixpoint reached (entries : list Entry) (p : string) : list string :=
  match entries with
  | [] => []
  | e :: older =>
      let below := reached older p in
      if existsb (fun d => String.eqb d p || bool_decide (d ∈ below))
                 (dependencies e)
      then name e :: below
      else below
  end.

Definition invalidate (names : list string) (m : gmap string Slot) : gmap string Slot :=
  foldr (alter (fun s => {| cachedValue := cachedValue s; valid := false |})) m names.

(** Modelled from the spec: [set(propertyName, value)]. The write is
    never compared with the old value, and invalidation is propagated
    at once. *)
Definition set (entries : list Entry) (st : Store) (p : string) (v : value) : Store :=
  {| raw := <[p := v]> (raw st);
     slots := invalidate (reached entries p) (slots st);
     invocations := invocations st |}.

(** What [n] is worth under the raw properties [props]: for an entry,
    [compute] on the worth of its dependencies. *)
Fixpoint current (entries : list Entry) (props : gmap string value) (n : string) : value :=
  match entries with
  | [] => JS.get props n
  | e :: older =>
      if String.eqb (name e) n
      then compute e (scope (dependencies e) (map (current older props) (dependencies e)))
      else current older props n
  end.

(** Every name [n] depends on, directly or through other entries. *)
Fixpoint depends_on (entries : list Entry) (n : string) : list string :=
  match entries with
  | [] => []
  | e :: older =>
      if String.eqb (name e) n
      then dependencies e ++ flat_map (depends_on older) (dependencies e)
      else depends_on older n
  end.

(** Modelled from the spec: the invariant of the store. For every entry,
    [valid] implies that [cachedValue] is [compute] on what the
    dependencies are worth now. *)
Fixpoint coherent (entries : list Entry) (st : Store) : Prop :=
  match entries with
  | [] => True
  | e :: older =>
      (forall s, slots st !! name e = Some s -> valid s = true ->
                 cachedValue s = Some (current entries (raw st) (name e)))
      /\ coherent older st
  end.

(** A read leaves the raw properties alone, writes only memos of entries,
    and only adds names of entries to the log of invocations. *)
Definition get_frame (entries : list Entry) (st st' : Store) : Prop :=
  raw st' = raw st
  /\ (forall m, m ∉ map name entries -> slots st' !! m = slots st !! m)
  /\ exists l, invocations st' = invocations st ++ l
               /\ Forall (fun x => x ∈ map name entries) l.

(** A caller's use of the store. *)
Inductive op : Type :=
| Write (p : string) (v : value)
| Read (n : string).

Definition step (entries : list Entry) (st : Store) (o : op) : Store :=
  match o with
  | Write p v => set entries st p v
  | Read n => snd (get entries st n)
  end.

Definition run (entries : list Entry) (ops : list op) (st : Store) : Store :=
  fold_left (step entries) ops st.

Definition writes (ws : list (string * value)) : list op :=
  map (fun w => Write (fst w) (snd w)) ws.

(** How often [compute] of [n] ran. *)
Definition computed_times (n : string) (st : Store) : nat :=
  count_occ string_dec (invocations st) n.

(** The two computed entries of SC.LinkView, [displayBody] declared last. *)
Definition displayBody_entry (loc : value -> value) : Entry :=
  {| name := "displayBody";
     dependencies := ["body"; "localize"];
     compute := displayBody loc |}.

Definition hreflang_entry (language : value) : Entry :=
  {| name := "hreflang";
     dependencies := ["language"; "localize"];
     compute := hreflang language |}.

Definition link_view (loc : value -> value) (language : value) : list Entry :=
  [ displayBody_entry loc; hreflang_entry language ].

End Cache.

Import Host.

(* ------------------------------------------------------------------------ *)
(** ** Reading the two paths *)

Module Sync.

(** [render] goes through when [ping] and [rel] are arrays or falsy. *)
Definition array_or_falsy (v : value) : bool :=
  negb (truthy v) || match v with VArr _ => true | _ => false end.

Definition renderable (this : gmap string value) : bool :=
  array_or_falsy (get this "ping") && array_or_falsy (get this "rel").

(** The value the cold path gives an attribute. *)
Definition attr_of (calls : list context_call) (k : string) : option value :=
  match calls with
  | SetAttr attrs :: _ => snd <$> List.find (fun kv => String.eqb (fst kv) k) attrs
  | _ => None
  end.

(** The content the cold path pushes. *)
Definition pushed (calls : list context_call) : list value :=
  flat_map (fun c => match c with Push text => [text] | SetAttr _ => [] end) calls.

(** The value the warm path gives an attribute, or the content ("html"). *)
Definition sent_to (calls : list jq_call) (k : string) : option value :=
  payload_of <$> List.find (fun c => String.eqb (target_of c) k) calls.

(** A call on the jQuery handle writes unless its value is [undefined]. *)
Definition is_write (c : jq_call) : bool :=
  negb (bool_decide (payload_of c = VUndefined)).

(** What a run of [update] mutates on the element. *)
Definition mutated (calls : list jq_call) : list string :=
  map target_of (List.filter is_write calls).

(** The fields whose display value differs between two snapshots. *)
Definition changed_fields (previous new : gmap string value) : list string :=
  map fst (List.filter
             (fun fp => negb (bool_decide (get previous (snd fp) = get new (snd fp))))
             field_table).

(** The diffing reading of the warm path: a field is mutated exactly when
    its value changed since the previous snapshot. *)
Definition patches_changes_only (escapeHTML : value -> value)
    (previous new : gmap string value) : Prop :=
  forall f, f ∈ mutated (update escapeHTML new) <-> f ∈ changed_fields previous new.


(** The link of the class documentation. *)
Definition resume_link : gmap string value :=
  list_to_map
    [ ("displayBody", VStr "Current Resume");
      ("displayToolTip", VStr "Link to current resume");
      ("fileName", VStr "Resume - Tyler Keating.pdf");
      ("escapeHTML", VBool true);
      ("href", VStr "/users/22/cur-resume.pdf");
      ("hreflang", VStr "en");
      ("ping", VNull);
      ("rel", VArr ["author"; "sidebar"]);
      ("target", VStr "_blank");
      ("type", VNull) ].

(** The same link under another tool tip. *)
Definition resume_link_retitled : gmap string value :=
  <["displayToolTip" := VStr "Resume <latest>"]> resume_link.

(** What [render] asks of the context for that link. *)
Definition resume_link_calls : list context_call :=
  Eval vm_compute in default [] (render Host.escapeHTML resume_link).

(** A link without body and without tool tip, and an escaping function that
    leaves its mark on whatever it is given. *)
Definition bare_link : gmap string value :=
  <["displayToolTip" := VStr ""]> (<["displayBody" := VNull]> resume_link).

Definition marking_escape (v : value) : value := VStr "escaped".

Definition bare_link_calls : list context_call :=
  Eval vm_compute in default [] (render marking_escape bare_link).

End Sync.

Module CacheOps.

Import Cache.

(** The raw properties after a caller's writes. *)
Definition latest (ops : list op) (props : gmap string value) : gmap string value :=
  fold_left (fun m o => match o with Write p v => <[p := v]> m | Read _ => m end)
            ops props.

(** A localisation table with one entry, and the properties of a view. *)
Definition sample_loc (v : value) : value :=
  match v with
  | VStr "Current Resume" => VStr "CV actuel"
  | _ => v
  end.

Definition sample_properties : gmap string value :=
  list_to_map
    [ ("body", VStr "Current Resume");
      ("localize", VBool true);
      ("language", VNull) ].

(** Properties whose body is no text. *)
Definition flagged_properties : gmap string value :=
  list_to_map
    [ ("body", VBool true);
      ("localize", VBool false) ].

(** A caller that reads the body, then changes it and turns localisation
    off. *)
Definition sample_ops : list op :=
  [ Read "displayBody";
    Write "body" (VStr "Annual Report");
    Write "localize" (VBool false) ].

(** Writes that have nothing to do with the body. *)
Definition sample_writes : list (string * value) :=
  [ ("language", VStr "fr"); ("href", VStr "/reports/2012/annual-report.pdf") ].

End CacheOps.

(* ------------------------------------------------------------------------ *)
(** ** The class as it is declared *)

Module View.

(** [displayProperties: [...]], the observed properties that cause the
    view to be rendered again. *)
Definition displayProperties : list string :=
  [ "displayBody"; "displayToolTip"; "fileName"; "href"; "hreflang" ].

(** The properties [SC.LinkView] declares, with their values. *)
Definition defaults : gmap string value :=
  list_to_map
    [ ("ariaRole", VStr "link");
      ("body", VStr "");
      ("classNames", VArr ["sc-link-view"]);
      ("displayProperties", VArr displayProperties);
      ("fileName", VNull);
      ("escapeHTML", VBool true);
      ("href", VStr "#");
      ("language", VNull);
      ("ping", VNull);
      ("rel", VNull);
      ("tagName", VStr "a");
      ("target", VStr "_blank");
      ("type", VNull) ].

(** What [this.get] reads in [render] and [update] on a view whose raw
    properties are [raw]: [displayBody] and [hreflang] are the computed
    properties of this class, every other key is read as it is kept
    ([displayToolTip] is computed by SC.View, outside this file). *)
Definition snapshot (loc : value -> value) (currentLocale_language : value)
    (raw : gmap string value) : gmap string value :=
  <["displayBody" := displayBody loc raw]>
    (<["hreflang" := hreflang currentLocale_language raw]> raw).

(** Every call of [update] carries a value, so that every call writes. *)
Definition defined_fields (escapeHTML : value -> value)
    (this : gmap string value) : Prop :=
  Forall (fun c => payload_of c <> VUndefined) (update escapeHTML this).

(** The attributes [render] hands to its context. *)
Definition rendered_attributes : list string :=
  [ "download"; "href"; "hreflang"; "ping"; "rel"; "target"; "title"; "type" ].

(** The text of the items of [ping] or [rel], if it is an array. *)
Definition spaced (v : value) : option string :=
  match v with
  | VArr items => Some (String.concat " " items)
  | _ => None
  end.

(** No ["<"] and no [">"] occurs in a text. *)
Fixpoint markup_free (s : string) : bool :=
  match s with
  | EmptyString => true
  | String c rest =>
      negb (Ascii.eqb c "<") && negb (Ascii.eqb c ">") && markup_free rest
  end.

(** A link that overrides the body only, and one that also turns the
    attribute [ping] on. *)
Definition report_link : gmap string value :=
  <["body" := VStr "<Annual Report>"]> defaults.

Definition tracked_link : gmap string value :=
  <["ping" := VArr ["http://a.example/"; "http://b.example/"]]> report_link.

Definition tracked_link_calls : list context_call :=
  Eval vm_compute in
    default [] (render Host.escapeHTML (snapshot (fun v => v) (VStr "en") tracked_link)).

(** The link of the class documentation, opened in the same frame. *)
Definition retargeted_link : gmap string value :=
  <["target" := VStr "_self"]> Sync.resume_link.

End View.

(* ------------------------------------------------------------------------ *)
(** ** Facts about JavaScript values *)

Lemma truthy_js_and (a b : value) : truthy (js_and a b) = truthy a && truthy b.
Proof. unfold js_and. destruct (truthy a) eqn:Ha; simpl; [reflexivity | exact Ha]. Qed.

Lemma js_or_truthy (a b : value) : truthy a = true -> js_or a b = a.
Proof. unfold js_or. intros ->. reflexivity. Qed.

Lemma js_or_falsy (a b : value) : truthy a = false -> js_or a b = b.
Proof. unfold js_or. intros ->. reflexivity. Qed.

Lemma truthy_not_null (v : value) : truthy v = true -> v <> VNull.
Proof. intros Hv ->. discriminate Hv. Qed.

Lemma get_insert_eq (this : gmap string value) (k : string) (v : value) :
  get (<[k := v]> this) k = v.
Proof. unfold get. rewrite lookup_insert_eq. reflexivity. Qed.

Lemma get_insert_ne (this : gmap string value) (k k' : string) (v : value) :
  k <> k' -> get (<[k := v]> this) k' = get this k'.
Proof. intros Hne. unfold get. rewrite lookup_insert_ne by exact Hne. reflexivity. Qed.

(** Rewrites the reads of a snapshot that was extended key by key. *)
Ltac get_simpl :=
  repeat first
    [ rewrite get_insert_eq
    | rewrite get_insert_ne by (intro; discriminate) ].

(* ------------------------------------------------------------------------ *)
(** ** The computed properties *)

Section ComputedProperties.

Variable loc : value -> value.
Variable currentLocale_language : value.

(** The three cases of [displayBody], whatever [body] holds. *)
Lemma displayBody_cases (this : gmap string value) :
  displayBody loc this =
    (if truthy (get this "body")
     then if truthy (get this "localize") then loc (get this "body") else get this "body"
     else VStr "").
Proof.
  unfold displayBody. cbv zeta. rewrite truthy_js_and. unfold js_or.
  destruct (truthy (get this "body")); cbn [andb]; reflexivity.
Qed.

(** C8, as the code has it. For every value of [body], [displayBody] is
    the empty string when [body] is falsy, the localised [body] when
    [body] and [localize] are truthy, and [body] itself otherwise. With a
    localisation that maps strings to strings it is a string whenever
    [body] is a string or falsy; with [localize] falsy it is a string
    only then, a truthy [body] that is no string being handed back as it
    is. *)
Theorem displayBody_is_a_string (this : gmap string value) :
  (forall s, is_string (loc (VStr s)) = true) ->
  displayBody loc this =
    (if truthy (get this "body")
     then if truthy (get this "localize") then loc (get this "body") else get this "body"
     else VStr "")
  /\ (is_string (get this "body") || negb (truthy (get this "body")) = true ->
      is_string (displayBody loc this) = true)
  /\ (truthy (get this "localize") = false ->
      is_string (displayBody loc this)
      = is_string (get this "body") || negb (truthy (get this "body"))).
Proof.
  intros Hloc. split; [apply displayBody_cases |]. split.
  - intros Hbody. rewrite displayBody_cases.
    destruct (truthy (get this "body")) eqn:Hb; [| reflexivity].
    destruct (get this "body"); try discriminate Hbody; try discriminate Hb.
    destruct (truthy (get this "localize")); [apply Hloc | reflexivity].
  - intros Hoff. rewrite displayBody_cases, Hoff.
    destruct (truthy (get this "body")); cbn [negb is_string].
    + symmetry. apply orb_false_r.
    + symmetry. apply orb_true_r.
Qed.

(** C9. [hreflang] is [language] when that is truthy and the language of
    the current locale otherwise, so it is [null] only if the locale has
    no language. *)
Theorem hreflang_never_null (this : gmap string value) :
  currentLocale_language <> VNull ->
  hreflang currentLocale_language this <> VNull
  /\ hreflang currentLocale_language this =
       (if truthy (get this "language")
        then get this "language"
        else currentLocale_language).
Proof.
  intros Hlocale. unfold hreflang, js_or. cbv zeta.
  destruct (truthy (get this "language")) eqn:Hl; split; try reflexivity.
  - apply truthy_not_null, Hl.
  - exact Hlocale.
Qed.

End ComputedProperties.

Lemma displayBody_is_a_string_witness :
  (forall s, is_string (CacheOps.sample_loc (VStr s)) = true)
  /\ displayBody CacheOps.sample_loc CacheOps.sample_properties = VStr "CV actuel"
  /\ is_string (displayBody CacheOps.sample_loc CacheOps.sample_properties) = true.
Proof.
  assert (Hloc : forall s, is_string (CacheOps.sample_loc (VStr s)) = true).
  { intros s. unfold CacheOps.sample_loc.
    repeat match goal with
           | |- context [match ?x with _ => _ end] => destruct x; try reflexivity
           end. }
  split; [exact Hloc |].
  destruct (displayBody_is_a_string CacheOps.sample_loc CacheOps.sample_properties
              Hloc) as (Heq & Hstr & _).
  split.
  - rewrite Heq. vm_compute. reflexivity.
  - apply Hstr. vm_compute. reflexivity.
Defined.

(** C8, as the spec has it, fails: a [body] of [true] on a view that does
    not localise is handed back as it is, and [true] is no string. *)
Lemma displayBody_of_true_is_no_string :
  displayBody CacheOps.sample_loc CacheOps.flagged_properties = VBool true
  /\ is_string (displayBody CacheOps.sample_loc CacheOps.flagged_properties) = false.
Proof. split; vm_compute; reflexivity. Qed.

Lemma hreflang_never_null_witness :
  VStr "en" <> VNull
  /\ hreflang (VStr "en") CacheOps.sample_properties <> VNull
  /\ hreflang (VStr "en") CacheOps.sample_properties = VStr "en".
Proof.
  assert (Hlocale : VStr "en" <> VNull) by discriminate.
  split; [exact Hlocale |].
  destruct (hreflang_never_null (VStr "en") CacheOps.sample_properties Hlocale)
    as [Hnn Heq].
  split; [exact Hnn |]. rewrite Heq. vm_compute. reflexivity.
Defined.

(* ------------------------------------------------------------------------ *)
(** ** The two rendering paths *)

Section Paths.

Import Sync.

Variable escapeHTML : value -> value.

Lemma joined_array_or_falsy (v : value) :
  array_or_falsy v = true -> exists t, joined v = Some t.
Proof.
  unfold array_or_falsy, joined.
  destruct v as [| | b | s | items]; simpl; eauto.
  - destruct b; simpl; [discriminate | eauto].
  - destruct (String.eqb s ""); simpl; [eauto | discriminate].
Qed.

(** A renderable view is rendered by one [setAttr] and one [push]. *)
Lemma render_renderable (this : gmap string value) :
  renderable this = true ->
  exists ping' rel',
    joined (get this "ping") = Some ping'
    /\ joined (get this "rel") = Some rel'
    /\ render escapeHTML this =
         Some [ SetAttr [ ("download", get this "fileName");
                          ("href", get this "href");
                          ("hreflang", get this "hreflang");
                          ("ping", ping');
                          ("rel", rel');
                          ("target", get this "target");
                          ("title", escaped escapeHTML (get this "displayToolTip")
                                            (get this "escapeHTML"));
                          ("type", get this "type") ];
                Push (escaped escapeHTML (get this "displayBody")
                              (get this "escapeHTML")) ].
Proof.
  unfold renderable. intros [Hping Hrel]%andb_prop.
  destruct (joined_array_or_falsy _ Hping) as [ping' Hp].
  destruct (joined_array_or_falsy _ Hrel) as [rel' Hr].
  exists ping', rel'. repeat split; try assumption.
  unfold render. cbv zeta. rewrite Hp, Hr. reflexivity.
Qed.

(** Whenever [render] returns, it has made those two calls. *)
Lemma render_Some (this : gmap string value) (calls : list context_call) :
  render escapeHTML this = Some calls ->
  exists ping' rel',
    joined (get this "ping") = Some ping'
    /\ joined (get this "rel") = Some rel'
    /\ calls =
         [ SetAttr [ ("download", get this "fileName");
                     ("href", get this "href");
                     ("hreflang", get this "hreflang");
                     ("ping", ping');
                     ("rel", rel');
                     ("target", get this "target");
                     ("title", escaped escapeHTML (get this "displayToolTip")
                                       (get this "escapeHTML"));
                     ("type", get this "type") ];
           Push (escaped escapeHTML (get this "displayBody")
                         (get this "escapeHTML")) ].
Proof.
  unfold render. cbv zeta. intros H.
  destruct (joined (get this "ping")) as [ping' |]; [| discriminate H].
  destruct (joined (get this "rel")) as [rel' |]; [| discriminate H].
  cbn in H. injection H as <-. exists ping', rel'. repeat split.
Qed.

Lemma escaped_cases (x flag : value) :
  escaped escapeHTML x flag = if truthy x && truthy flag then escapeHTML x else x.
Proof. unfold escaped. rewrite truthy_js_and. reflexivity. Qed.

(** C5. The warm path hands the element the same title and the same
    content as the cold path hands its context, for the same body, tool
    tip and [escapeHTML] flag: both are the value escaped by the one rule
    [escaped]. *)
Theorem update_escapes_like_render (cold warm : gmap string value)
    (calls : list context_call) :
  get cold "displayBody" = get warm "displayBody" ->
  get cold "displayToolTip" = get warm "displayToolTip" ->
  get cold "escapeHTML" = get warm "escapeHTML" ->
  render escapeHTML cold = Some calls ->
  exists title body,
    attr_of calls "title" = Some title
    /\ sent_to (update escapeHTML warm) "title" = Some title
    /\ pushed calls = [body]
    /\ sent_to (update escapeHTML warm) "html" = Some body
    /\ title = escaped escapeHTML (get warm "displayToolTip") (get warm "escapeHTML")
    /\ body = escaped escapeHTML (get warm "displayBody") (get warm "escapeHTML").
Proof.
  intros Hbody Htip Hflag Hrender.
  destruct (render_Some _ _ Hrender) as (ping' & rel' & _ & _ & ->).
  rewrite Hbody, Htip, Hflag.
  eexists _, _. repeat split.
Qed.

(** C10. On both paths the title and the content are escaped only when the
    value is truthy and the flag is truthy; any other value, a falsy one
    included, reaches the sink as it is. *)
Theorem escaping_needs_a_truthy_value (this : gmap string value)
    (calls : list context_call) :
  render escapeHTML this = Some calls ->
  let tip := get this "displayToolTip" in
  let body := get this "displayBody" in
  let flag := get this "escapeHTML" in
  attr_of calls "title" = Some (if truthy tip && truthy flag then escapeHTML tip else tip)
  /\ pushed calls = [if truthy body && truthy flag then escapeHTML body else body]
  /\ sent_to (update escapeHTML this) "title"
     = Some (if truthy tip && truthy flag then escapeHTML tip else tip)
  /\ sent_to (update escapeHTML this) "html"
     = Some (if truthy body && truthy flag then escapeHTML body else body).
Proof.
  intros Hrender tip body flag.
  destruct (render_Some _ _ Hrender) as (ping' & rel' & _ & _ & ->).
  subst tip body flag. rewrite <- !escaped_cases. repeat split.
Qed.

End Paths.

(* ------------------------------------------------------------------------ *)
(** ** The element under the calls of the two paths *)

Section Element.

Import Sync.

Lemma written_idem (v : value) (old : option string) :
  written v (written v old) = written v old.
Proof. destruct v; reflexivity. Qed.


Lemma lookup_set_attribute (k j : string) (o : option string) (n : Node) :
  attributes (set_attribute k o n) !! j
  = if decide (k = j) then o else attributes n !! j.
Proof. unfold set_attribute. cbn. apply lookup_partial_alter. Qed.

Lemma content_set_attribute (k : string) (o : option string) (n : Node) :
  content (set_attribute k o n) = content n.
Proof. reflexivity. Qed.

Lemma lookup_jq_attr (k j : string) (v : value) (n : Node) :
  attributes (jq_step n (Attr k v)) !! j
  = if decide (k = j) then written v (attributes n !! j) else attributes n !! j.
Proof.
  destruct v; cbn [jq_step written]; rewrite ?lookup_set_attribute;
    case_decide; reflexivity.
Qed.

Lemma attributes_jq_html (v : value) (n : Node) :
  attributes (jq_step n (Html v)) = attributes n.
Proof. destruct v; reflexivity. Qed.

Lemma content_jq_attr (k : string) (v : value) (n : Node) :
  content (jq_step n (Attr k v)) = content n.
Proof. destruct v; reflexivity. Qed.

Lemma content_jq_html (v : value) (n : Node) :
  content (jq_step n (Html v))
  = match v with
    | VUndefined => content n
    | _ => if nullish v then "" else to_text v
    end.
Proof. destruct v; reflexivity. Qed.

Lemma node_eq (n m : Node) :
  attributes n = attributes m -> content n = content m -> n = m.
Proof. destruct n, m. cbn. intros -> ->. reflexivity. Qed.



Variable escapeHTML : value -> value.

(** The attributes of the element after [update]. *)
Lemma lookup_update (this : gmap string value) (n : Node) (j : string) :
  attributes (jq_run (update escapeHTML this) n) !! j
  = if decide ("title" = j)
    then written (escaped escapeHTML (get this "displayToolTip") (get this "escapeHTML"))
                 (attributes n !! j)
    else if decide ("hreflang" = j) then written (get this "hreflang") (attributes n !! j)
    else if decide ("href" = j) then written (get this "href") (attributes n !! j)
    else if decide ("download" = j) then written (get this "fileName") (attributes n !! j)
    else attributes n !! j.
Proof.
  unfold update, jq_run. cbv zeta. cbn [fold_left].
  rewrite attributes_jq_html, !lookup_jq_attr.
  repeat case_decide; subst; try reflexivity; discriminate.
Qed.

Lemma content_update (this : gmap string value) (n : Node) :
  content (jq_run (update escapeHTML this) n)
  = match escaped escapeHTML (get this "displayBody") (get this "escapeHTML") with
    | VUndefined => content n
    | v => if nullish v then "" else to_text v
    end.
Proof.
  unfold update, jq_run. cbv zeta. cbn [fold_left].
  rewrite content_jq_html, !content_jq_attr.
  destruct (escaped escapeHTML _ _); reflexivity.
Qed.

(** C7. [update] never addresses an attribute that is set once, it gives
    the same calls whatever the snapshot holds for the set-once
    properties, and it leaves those attributes of the element as they
    are; [render] is the only path that turns [ping], [rel], [target] and
    [type] into attributes. *)
Theorem update_leaves_set_once_fields (this : gmap string value) :
  Forall (fun c => target_of c ∉ set_once_attributes) (update escapeHTML this)
  /\ Forall (fun p => forall v, update escapeHTML (<[p := v]> this)
                               = update escapeHTML this) set_once
  /\ Forall (fun k => forall n, attributes (jq_run (update escapeHTML this) n) !! k
                               = attributes n !! k) set_once_attributes
  /\ from_option
       (fun calls =>
          Some <$> attr_of calls "ping" = Some (joined (get this "ping"))
          /\ Some <$> attr_of calls "rel" = Some (joined (get this "rel"))
          /\ attr_of calls "target" = Some (get this "target")
          /\ attr_of calls "type" = Some (get this "type"))
       (joined (get this "ping") = None \/ joined (get this "rel") = None)
       (render escapeHTML this).
Proof.
  split; [| split; [| split]].
  - unfold update, set_once_attributes. cbv zeta.
    repeat constructor; cbn [target_of]; intros Hin;
      apply list_elem_of_In in Hin; cbn in Hin;
      repeat (destruct Hin as [Hin | Hin]; [discriminate Hin |]); exact Hin.
  - unfold set_once. repeat constructor; intros v; unfold update; cbv zeta;
      get_simpl; reflexivity.
  - unfold set_once_attributes. repeat constructor; intros n;
      rewrite lookup_update; repeat case_decide; try discriminate; reflexivity.
  - unfold render. cbv zeta.
    destruct (joined (get this "ping")) as [ping' |]; cbn; [| left; reflexivity].
    destruct (joined (get this "rel")) as [rel' |]; cbn; [| right; reflexivity].
    repeat split.
Qed.

End Element.

(* ------------------------------------------------------------------------ *)
(** ** Cold path, then warm path *)

Section ColdThenWarm.

Import Sync.

Variable escapeHTML : value -> value.

(** The element a renderable view is first rendered as. *)
Lemma lookup_element_of (this : gmap string value) (calls : list context_call) :
  render escapeHTML this = Some calls ->
  attributes (element_of calls) !! "download" = attr_text (get this "fileName")
  /\ attributes (element_of calls) !! "href" = attr_text (get this "href")
  /\ attributes (element_of calls) !! "hreflang" = attr_text (get this "hreflang")
  /\ attributes (element_of calls) !! "title"
     = attr_text (escaped escapeHTML (get this "displayToolTip") (get this "escapeHTML"))
  /\ content (element_of calls)
     = (let v := escaped escapeHTML (get this "displayBody") (get this "escapeHTML") in
        if nullish v then "" else to_text v).
Proof.
  intros Hrender.
  destruct (render_Some _ _ _ Hrender) as (ping' & rel' & _ & _ & ->).
  unfold element_of. cbn [fold_left context_step fst snd].
  unfold set_content. cbn [attributes content].
  rewrite !content_set_attribute, !lookup_set_attribute.
  repeat split; repeat case_decide; try discriminate; try congruence.
Qed.


(** C1, as the code has it. [update] is given no previous snapshot and
    compares nothing: it makes one call for each of its five fields
    whatever changed, each carrying the value of the new snapshot (the
    tool tip and the body escaped when they and the flag are truthy), and
    addresses no other attribute. When only the tool tip differs between
    two snapshots, updating with the second an element updated with the
    first changes no attribute but [title], and not the content. *)
Theorem update_rewrites_every_field (previous new : gmap string value) :
  (forall p, p <> "displayToolTip" -> get previous p = get new p) ->
  map target_of (update escapeHTML new) = map fst field_table
  /\ map payload_of (update escapeHTML new)
     = [ get new "fileName";
         get new "href";
         get new "hreflang";
         (if truthy (get new "displayToolTip") && truthy (get new "escapeHTML")
          then escapeHTML (get new "displayToolTip")
          else get new "displayToolTip");
         (if truthy (get new "displayBody") && truthy (get new "escapeHTML")
          then escapeHTML (get new "displayBody")
          else get new "displayBody") ]
  /\ (forall n k, k ∉ ["download"; "href"; "hreflang"; "title"] ->
        attributes (jq_run (update escapeHTML new) n) !! k = attributes n !! k)
  /\ (forall n k, k <> "title" ->
        attributes (jq_run (update escapeHTML new)
                      (jq_run (update escapeHTML previous) n)) !! k
        = attributes (jq_run (update escapeHTML previous) n) !! k)
  /\ (forall n,
        content (jq_run (update escapeHTML new)
                   (jq_run (update escapeHTML previous) n))
        = content (jq_run (update escapeHTML previous) n)).
Proof.
  intros Hsame. split; [reflexivity |].
  split; [rewrite <- !(escaped_cases escapeHTML); reflexivity |].
  split; [| split].
  - intros n k Hk. rewrite lookup_update.
    repeat case_decide; subst; try reflexivity; exfalso; apply Hk; set_solver.
  - intros n k Hk. rewrite !lookup_update.
    rewrite !(Hsame "hreflang"), !(Hsame "href"), !(Hsame "fileName") by discriminate.
    repeat case_decide; subst; try reflexivity; try congruence;
      rewrite written_idem; reflexivity.
  - intros n. rewrite !content_update.
    rewrite !(Hsame "displayBody"), !(Hsame "escapeHTML") by discriminate.
    destruct (escaped escapeHTML _ _); reflexivity.
Qed.

End ColdThenWarm.

Example escape_text_script :
  escape_text "<script>alert('a & b')</script>"
  = "&lt;script&gt;alert('a &amp; b')&lt;/script&gt;".
Proof. reflexivity. Qed.

(** The anchor of the class documentation:
    [<a href=".." download=".." title="..">Current Resume</a>]. *)
Example resume_link_element :
  element_of Sync.resume_link_calls
  = {| attributes :=
         list_to_map
           [ ("download", "Resume - Tyler Keating.pdf");
             ("href", "/users/22/cur-resume.pdf");
             ("hreflang", "en");
             ("rel", "author sidebar");
             ("target", "_blank");
             ("title", "Link to current resume") ];
       content := "Current Resume" |}.
Proof. vm_compute. reflexivity. Qed.

(** C4. With [escapeHTML] set to true, [render] pushes the body with its
    markup characters turned into entities; with the flag set to false it
    pushes the body as it is. *)
Theorem render_escapes_body (this : gmap string value) (s : string) :
  Sync.renderable this = true ->
  Sync.pushed <$> render Host.escapeHTML
                    (<["escapeHTML" := VBool true]> (<["displayBody" := VStr s]> this))
  = Some [VStr (escape_text s)]
  /\ Sync.pushed <$> render Host.escapeHTML
                       (<["escapeHTML" := VBool false]> (<["displayBody" := VStr s]> this))
     = Some [VStr s]
  /\ escape_text "<b>hi</b>" = "&lt;b&gt;hi&lt;/b&gt;".
Proof.
  intros Hthis. split; [| split; [| reflexivity]].
  - destruct (render_renderable Host.escapeHTML
                (<["escapeHTML" := VBool true]> (<["displayBody" := VStr s]> this)))
      as (ping' & rel' & _ & _ & ->).
    { unfold Sync.renderable in *. get_simpl. exact Hthis. }
    cbn [fmap option_fmap option_map Sync.pushed flat_map app].
    get_simpl. rewrite escaped_cases. destruct s; reflexivity.
  - destruct (render_renderable Host.escapeHTML
                (<["escapeHTML" := VBool false]> (<["displayBody" := VStr s]> this)))
      as (ping' & rel' & _ & _ & ->).
    { unfold Sync.renderable in *. get_simpl. exact Hthis. }
    cbn [fmap option_fmap option_map Sync.pushed flat_map app].
    get_simpl. rewrite escaped_cases. cbn [truthy]. rewrite andb_false_r. reflexivity.
Qed.

(* ------------------------------------------------------------------------ *)
(** ** The link of the class documentation, rendered and updated *)

Lemma render_escapes_body_witness :
  Sync.renderable Sync.resume_link = true
  /\ Sync.pushed <$> render Host.escapeHTML
                       (<["escapeHTML" := VBool true]>
                          (<["displayBody" := VStr "<b>hi</b>"]> Sync.resume_link))
     = Some [VStr (escape_text "<b>hi</b>")]
  /\ Sync.pushed <$> render Host.escapeHTML
                       (<["escapeHTML" := VBool false]>
                          (<["displayBody" := VStr "<b>hi</b>"]> Sync.resume_link))
     = Some [VStr "<b>hi</b>"]
  /\ escape_text "<b>hi</b>" = "&lt;b&gt;hi&lt;/b&gt;".
Proof.
  assert (H : Sync.renderable Sync.resume_link = true) by (vm_compute; reflexivity).
  split; [exact H |].
  exact (render_escapes_body Sync.resume_link "<b>hi</b>" H).
Defined.

Lemma update_escapes_like_render_witness :
  render Host.escapeHTML Sync.resume_link = Some Sync.resume_link_calls
  /\ exists title body,
       Sync.attr_of Sync.resume_link_calls "title" = Some title
       /\ Sync.sent_to (update Host.escapeHTML Sync.resume_link) "title" = Some title
       /\ Sync.pushed Sync.resume_link_calls = [body]
       /\ Sync.sent_to (update Host.escapeHTML Sync.resume_link) "html" = Some body
       /\ title = escaped Host.escapeHTML (get Sync.resume_link "displayToolTip")
                          (get Sync.resume_link "escapeHTML")
       /\ body = escaped Host.escapeHTML (get Sync.resume_link "displayBody")
                         (get Sync.resume_link "escapeHTML").
Proof.
  assert (H : render Host.escapeHTML Sync.resume_link = Some Sync.resume_link_calls)
    by (vm_compute; reflexivity).
  split; [exact H |].
  exact (update_escapes_like_render Host.escapeHTML Sync.resume_link Sync.resume_link
           Sync.resume_link_calls eq_refl eq_refl eq_refl H).
Defined.

Lemma escaping_needs_a_truthy_value_witness :
  render Sync.marking_escape Sync.bare_link = Some Sync.bare_link_calls
  /\ Sync.attr_of Sync.bare_link_calls "title" = Some (VStr "")
  /\ Sync.pushed Sync.bare_link_calls = [VNull]
  /\ Sync.sent_to (update Sync.marking_escape Sync.bare_link) "title" = Some (VStr "")
  /\ Sync.sent_to (update Sync.marking_escape Sync.bare_link) "html" = Some VNull.
Proof.
  assert (H : render Sync.marking_escape Sync.bare_link = Some Sync.bare_link_calls)
    by (vm_compute; reflexivity).
  split; [exact H |].
  exact (escaping_needs_a_truthy_value Sync.marking_escape Sync.bare_link
           Sync.bare_link_calls H).
Defined.

Lemma resume_links_differ_in_tool_tip (p : string) :
  p <> "displayToolTip" -> get Sync.resume_link p = get Sync.resume_link_retitled p.
Proof.
  intros Hp. unfold Sync.resume_link_retitled.
  rewrite get_insert_ne by congruence. reflexivity.
Qed.



(** C1, as the spec has it, fails: between the link and the link under
    another tool tip only [title] changed, yet [update] writes [href] too. *)
Lemma update_mutates_unchanged_fields :
  ~ Sync.patches_changes_only Host.escapeHTML Sync.resume_link Sync.resume_link_retitled.
Proof.
  intros Hdiff. destruct (Hdiff "href") as [Hmut _].
  assert (Hin : "href" ∈ Sync.changed_fields Sync.resume_link Sync.resume_link_retitled).
  { apply Hmut. apply list_elem_of_In. vm_compute. tauto. }
  apply list_elem_of_In in Hin. vm_compute in Hin.
  destruct Hin as [Hin | []]. discriminate Hin.
Qed.

(* ------------------------------------------------------------------------ *)
(** ** The property store keeps its memos fresh *)

Section Store.

Import Cache CacheOps.

Lemma cached_Some (st : Store) (n : string) (v : value) :
  cached st n = Some v
  <-> exists s, slots st !! n = Some s /\ valid s = true /\ cachedValue s = Some v.
Proof.
  unfold cached. split.
  - destruct (slots st !! n) as [[[w |] [|]] |]; try discriminate.
    intros [= ->]. eexists. repeat split.
  - intros ([c b] & -> & Hv & Hc). cbn in Hv, Hc. subst. reflexivity.
Qed.

Lemma cached_remember (st : Store) (n : string) (v : value) :
  cached (remember n v st) n = Some v.
Proof. unfold cached, remember. cbn. rewrite lookup_insert_eq. reflexivity. Qed.

Lemma name_eqb_true (a b : string) : String.eqb a b = true <-> a = b.
Proof. apply String.eqb_eq. Qed.

Lemma name_eqb_false (a b : string) : String.eqb a b = false <-> a <> b.
Proof. apply String.eqb_neq. Qed.

(** *** Reading a list of names *)

Lemma get_all_spec (g : Store -> string -> value * Store) (f : string -> value)
    (I : Store -> Prop) :
  (forall st n, I st -> fst (g st n) = f n /\ I (snd (g st n))) ->
  forall ns st, I st ->
    fst (get_all g ns st) = map f ns /\ I (snd (get_all g ns st)).
Proof.
  intros Hg ns. induction ns as [| n ns IH]; intros st Hst; cbn.
  - split; [reflexivity | exact Hst].
  - destruct (Hg st n Hst) as [Hv Hst1].
    destruct (g st n) as [v st1]. cbn in Hv, Hst1.
    destruct (IH st1 Hst1) as [Hvs Hst2].
    destruct (get_all g ns st1) as [vs st2]. cbn in *.
    subst. split; [reflexivity | exact Hst2].
Qed.

Lemma get_all_keeps (g : Store -> string -> value * Store) (I : Store -> Prop) :
  (forall st n, I st -> I (snd (g st n))) ->
  forall ns st, I st -> I (snd (get_all g ns st)).
Proof.
  intros Hg ns. induction ns as [| n ns IH]; intros st Hst; cbn; [exact Hst |].
  specialize (Hg st n Hst). destruct (g st n) as [v st1]. cbn in Hg.
  specialize (IH st1 Hg). destruct (get_all g ns st1) as [vs st2]. exact IH.
Qed.

(** *** What a read touches *)

Lemma get_frame_refl (entries : list Entry) (st : Store) : get_frame entries st st.
Proof.
  repeat split. exists []. split; [symmetry; apply app_nil_r | constructor].
Qed.

Lemma get_frame_trans (entries : list Entry) (a b c : Store) :
  get_frame entries a b -> get_frame entries b c -> get_frame entries a c.
Proof.
  intros (Hr1 & Hs1 & l1 & Hl1 & Hn1) (Hr2 & Hs2 & l2 & Hl2 & Hn2).
  split; [congruence |]. split.
  - intros m Hm. rewrite Hs2, Hs1 by exact Hm. reflexivity.
  - exists (l1 ++ l2). split.
    + rewrite Hl2, Hl1, app_assoc. reflexivity.
    + apply Forall_app. split; assumption.
Qed.

Lemma get_frame_cons (e : Entry) (older : list Entry) (st st' : Store) :
  get_frame older st st' -> get_frame (e :: older) st st'.
Proof.
  intros (Hr & Hs & l & Hl & Hn). split; [exact Hr |]. split.
  - intros m Hm. apply Hs. intros Hin. apply Hm. cbn. apply elem_of_cons. auto.
  - exists l. split; [exact Hl |].
    eapply Forall_impl; [exact Hn |]. cbn. intros x Hx. apply elem_of_cons. auto.
Qed.

Lemma get_frames (entries : list Entry) (st : Store) (n : string) :
  get_frame entries st (snd (get entries st n)).
Proof.
  revert st n. induction entries as [| e older IH]; intros st n; cbn.
  - apply get_frame_refl.
  - destruct (String.eqb (name e) n) eqn:Hn.
    + destruct (cached st n) as [v |]; cbn; [apply get_frame_refl |].
      pose proof (get_all_keeps (get older) (get_frame older st)
                    (fun s d Hs => get_frame_trans _ _ _ _ Hs (IH s d))
                    (dependencies e) st (get_frame_refl _ _)) as Hall.
      destruct (get_all (get older) (dependencies e) st) as [vs st1]. cbn in *.
      destruct Hall as (Hr & Hs & l & Hl & Hnames).
      apply name_eqb_true in Hn. subst n.
      unfold get_frame, remember. cbn [raw slots invocations].
      split; [exact Hr |]. split.
      * intros m Hm. apply not_elem_of_cons in Hm as [Hne Hm].
        rewrite lookup_insert_ne by congruence. apply Hs, Hm.
      * exists (l ++ [name e]). split.
        -- rewrite Hl, app_assoc. reflexivity.
        -- apply Forall_app. split.
           ++ eapply Forall_impl; [exact Hnames |]. cbn.
              intros x Hx. apply elem_of_cons. auto.
           ++ repeat constructor.
    + apply get_frame_cons, IH.
Qed.

(** *** Reads keep the store coherent *)

Lemma coherent_frame (entries : list Entry) (st st' : Store) :
  raw st' = raw st ->
  (forall m, m ∈ map name entries -> slots st' !! m = slots st !! m) ->
  coherent entries st -> coherent entries st'.
Proof.
  intros Hraw. induction entries as [| e older IH]; intros Hslots Hco; cbn; [exact I |].
  destruct Hco as [Hhead Htail]. split.
  - intros s Hs Hv. rewrite Hraw. apply Hhead; [| exact Hv].
    rewrite <- Hs. symmetry. apply Hslots. cbn. apply elem_of_cons. auto.
  - apply IH; [| exact Htail].
    intros m Hm. apply Hslots. cbn. apply elem_of_cons. auto.
Qed.

Lemma current_head (e : Entry) (older : list Entry) (props : gmap string value) :
  current (e :: older) props (name e)
  = compute e (scope (dependencies e) (map (current older props) (dependencies e))).
Proof. cbn. rewrite String.eqb_refl. reflexivity. Qed.

Lemma get_correct (entries : list Entry) :
  NoDup (map name entries) ->
  forall st n, coherent entries st ->
    fst (get entries st n) = current entries (raw st) n
    /\ coherent entries (snd (get entries st n)).
Proof.
  induction entries as [| e older IH]; intros Hnd st n Hco.
  - cbn. split; [reflexivity | exact I].
  - cbn [map] in Hnd. apply NoDup_cons in Hnd as [Hfresh Hnd].
    destruct Hco as [Hhead Htail]. cbn [get current].
    destruct (String.eqb (name e) n) eqn:Hn.
    + apply name_eqb_true in Hn. subst n.
      destruct (cached st (name e)) as [v |] eqn:Hc.
      * cbn [fst snd]. split; [| split; assumption].
        apply cached_Some in Hc as (s & Hs & Hv & Hcv).
        specialize (Hhead s Hs Hv). rewrite current_head, Hcv in Hhead.
        injection Hhead as ->. reflexivity.
      * pose proof (get_all_spec (get older) (current older (raw st))
                      (fun s => coherent older s /\ get_frame older st s)) as Hall.
        specialize (Hall (fun s d Hs =>
          match Hs with
          | conj Hcs Hfs =>
              match IH Hnd s d Hcs with
              | conj Hval Hcs' =>
                  conj (eq_trans Hval (f_equal (fun r => current older r d) (proj1 Hfs)))
                       (conj Hcs' (get_frame_trans _ _ _ _ Hfs (get_frames older s d)))
              end
          end) (dependencies e) st (conj Htail (get_frame_refl _ _))).
        destruct (get_all (get older) (dependencies e) st) as [vs st1].
        cbn [fst snd] in *. destruct Hall as (-> & Hco1 & Hraw & Hslots & _).
        split; [reflexivity |]. split.
        -- intros s Hs Hv. unfold remember in *. cbn [slots raw] in *.
           rewrite lookup_insert_eq in Hs. injection Hs as <-.
           cbn [cachedValue]. rewrite current_head, Hraw. reflexivity.
        -- apply (coherent_frame older st1); [reflexivity | | exact Hco1].
           intros m Hm. unfold remember. cbn [slots].
           apply lookup_insert_ne. intros Heq. subst m. exact (Hfresh Hm).
    + destruct (IH Hnd st n Htail) as [Hval Hco']. split; [exact Hval |].
      destruct (get_frames older st n) as (Hraw & Hslots & _).
      split; [| exact Hco'].
      intros s Hs Hv. rewrite Hslots in Hs by exact Hfresh.
      rewrite Hraw. apply Hhead; assumption.
Qed.

(** *** Writes invalidate what they reach *)

Lemma reached_cons (e : Entry) (older : list Entry) (p n : string) :
  n ∈ reached older p -> n ∈ reached (e :: older) p.
Proof.
  intros Hn. cbn. destruct (existsb _ _); [apply elem_of_cons; auto | exact Hn].
Qed.

Lemma reached_names (entries : list Entry) (p n : string) :
  n ∈ reached entries p -> n ∈ map name entries.
Proof.
  induction entries as [| e older IH]; cbn; [trivial |].
  destruct (existsb _ _); rewrite !elem_of_cons; intuition.
Qed.

(** An entry that is not reached has no dependency that is written or
    reached. *)
Lemma unreached_head (e : Entry) (older : list Entry) (p : string) :
  name e ∉ reached (e :: older) p ->
  forall d, d ∈ dependencies e -> d <> p /\ d ∉ reached older p.
Proof.
  cbn. destruct (existsb _ _) eqn:Hex.
  - intros Hn. exfalso. apply Hn, elem_of_cons. auto.
  - intros _ d Hd.
    assert (Hf : String.eqb d p || bool_decide (d ∈ reached older p) = false).
    { destruct (String.eqb d p || bool_decide (d ∈ reached older p)) eqn:Hb;
        [| reflexivity].
      rewrite <- Hex. symmetry. apply existsb_exists. exists d.
      split; [apply list_elem_of_In, Hd | exact Hb]. }
    apply orb_false_elim in Hf as [Hp Hr]. split.
    + apply name_eqb_false, Hp.
    + intros Hin. apply bool_decide_eq_false in Hr. exact (Hr Hin).
Qed.

Lemma current_unreached (entries : list Entry) (p : string) (v : value)
    (props : gmap string value) (n : string) :
  n <> p \/ n ∈ map name entries ->
  n ∉ reached entries p ->
  current entries (<[p := v]> props) n = current entries props n.
Proof.
  revert n. induction entries as [| e older IH]; intros n Hn Hun.
  - cbn. destruct Hn as [Hn | Hn]; [| apply elem_of_nil in Hn; contradiction].
    apply get_insert_ne. congruence.
  - cbn [current]. destruct (String.eqb (name e) n) eqn:Heq.
    + apply name_eqb_true in Heq. subst n. do 2 f_equal.
      apply map_ext_in. intros d Hd. apply list_elem_of_In in Hd.
      destruct (unreached_head e older p Hun d Hd) as [Hdp Hdr].
      apply IH; [left; exact Hdp | exact Hdr].
    + apply name_eqb_false in Heq. apply IH.
      * destruct Hn as [Hn | Hn]; [left; exact Hn | right].
        cbn in Hn. apply elem_of_cons in Hn as [Hn | Hn]; [congruence | exact Hn].
      * intros Hin. apply Hun, reached_cons, Hin.
Qed.

Lemma invalidate_cons (a : string) (names : list string) (m : gmap string Slot) :
  invalidate (a :: names) m
  = alter (fun s => {| cachedValue := cachedValue s; valid := false |}) a
          (invalidate names m).
Proof. reflexivity. Qed.

Lemma lookup_invalidate_notin (names : list string) (m : gmap string Slot) (n : string) :
  n ∉ names -> invalidate names m !! n = m !! n.
Proof.
  induction names as [| a names IH]; intros Hn; cbn; [reflexivity |].
  apply not_elem_of_cons in Hn as [Hne Hn].
  rewrite lookup_alter_ne by congruence. apply IH, Hn.
Qed.

Lemma lookup_invalidate_in (names : list string) (m : gmap string Slot) (n : string)
    (s : Slot) :
  n ∈ names -> invalidate names m !! n = Some s -> valid s = false.
Proof.
  induction names as [| a names IH]; intros Hn.
  - apply elem_of_nil in Hn. contradiction.
  - rewrite invalidate_cons. destruct (decide (a = n)) as [-> | Hne].
    + rewrite lookup_alter_eq. intros Hs.
      destruct (invalidate names m !! n) as [s' |]; simplify_eq/=. reflexivity.
    + rewrite lookup_alter_ne by exact Hne.
      apply elem_of_cons in Hn as [Hn | Hn]; [congruence | exact (IH Hn)].
Qed.

Lemma coherent_set_suffix (full : list Entry) (p : string) (v : value) (st : Store)
    (entries : list Entry) :
  (forall m, m ∈ reached entries p -> m ∈ reached full p) ->
  coherent entries st -> coherent entries (set full st p v).
Proof.
  induction entries as [| e older IH]; intros Hsub Hco; [exact I |].
  destruct Hco as [Hhead Htail]. split.
  - unfold set. cbn [slots raw]. intros s Hs Hv.
    destruct (decide (name e ∈ reached full p)) as [Hin | Hout].
    + rewrite (lookup_invalidate_in _ _ _ _ Hin Hs) in Hv. discriminate Hv.
    + rewrite lookup_invalidate_notin in Hs by exact Hout.
      rewrite (Hhead s Hs Hv). f_equal. symmetry.
      apply current_unreached.
      * right. cbn. apply elem_of_cons. auto.
      * intros Hin. apply Hout, Hsub, Hin.
  - apply IH; [| exact Htail]. intros m Hm. apply Hsub, reached_cons, Hm.
Qed.

Lemma set_coherent (entries : list Entry) (st : Store) (p : string) (v : value) :
  coherent entries st -> coherent entries (set entries st p v).
Proof. apply coherent_set_suffix. trivial. Qed.

(** *** Any use of the store *)

Lemma fresh_coherent (entries : list Entry) (props : gmap string value) :
  coherent entries (fresh props).
Proof.
  induction entries as [| e older IH]; cbn; [exact I |].
  split; [| exact IH]. intros s Hs. rewrite lookup_empty in Hs. discriminate Hs.
Qed.

Lemma step_coherent (entries : list Entry) (st : Store) (o : op) :
  NoDup (map name entries) -> coherent entries st -> coherent entries (step entries st o).
Proof.
  intros Hnd Hco. destruct o as [p v | n]; cbn.
  - apply set_coherent, Hco.
  - apply get_correct; assumption.
Qed.

Lemma raw_step (entries : list Entry) (st : Store) (o : op) :
  raw (step entries st o) = latest [o] (raw st).
Proof.
  destruct o as [p v | n]; cbn; [reflexivity |].
  apply (get_frames entries st n).
Qed.

Lemma run_coherent (entries : list Entry) (ops : list op) (st : Store) :
  NoDup (map name entries) -> coherent entries st ->
  coherent entries (run entries ops st) /\ raw (run entries ops st) = latest ops (raw st).
Proof.
  intros Hnd. revert st. induction ops as [| o ops IH]; intros st Hco; cbn.
  - split; [exact Hco | reflexivity].
  - destruct (IH (step entries st o) (step_coherent _ _ _ Hnd Hco)) as [Hco' Hraw].
    split; [exact Hco' |]. unfold run in Hraw. rewrite Hraw, raw_step. reflexivity.
Qed.

Lemma current_app (newer : list Entry) (e : Entry) (older : list Entry)
    (props : gmap string value) :
  name e ∉ map name newer ->
  current (newer ++ e :: older) props (name e)
  = compute e (scope (dependencies e) (map (current older props) (dependencies e))).
Proof.
  induction newer as [| e' newer IH]; intros Hfresh; [apply current_head |].
  cbn in Hfresh. apply not_elem_of_cons in Hfresh as [Hne Hfresh].
  cbn [app current].
  destruct (String.eqb (name e') (name e)) eqn:Heq.
  - apply name_eqb_true in Heq. congruence.
  - apply IH, Hfresh.
Qed.

(** C2. After any sequence of writes and reads on a coherent store, a read
    of a computed entry returns [compute] on what its dependencies are
    worth under the latest raw properties, and every memo that is valid
    holds exactly that value. *)
Theorem get_is_never_stale (newer : list Entry) (e : Entry) (older : list Entry)
    (st : Store) (ops : list op) :
  NoDup (map name (newer ++ e :: older)) ->
  coherent (newer ++ e :: older) st ->
  let entries := newer ++ e :: older in
  let st' := run entries ops st in
  fst (get entries st' (name e))
  = compute e (scope (dependencies e)
                     (map (current older (latest ops (raw st))) (dependencies e)))
  /\ coherent entries st'
  /\ coherent entries (snd (get entries st' (name e))).
Proof.
  intros Hnd Hco entries st'.
  destruct (run_coherent entries ops st Hnd Hco) as [Hco' Hraw].
  destruct (get_correct entries Hnd st' (name e) Hco') as [Hval Hco''].
  split; [| split; assumption].
  fold st' in Hraw. rewrite Hval, Hraw. apply current_app.
  unfold entries in Hnd. rewrite map_app in Hnd.
  apply NoDup_app in Hnd as (_ & Hdisj & _).
  intros Hin. apply (Hdisj _ Hin). cbn. apply elem_of_cons. auto.
Qed.

(** *** Memoisation *)

Lemma get_cached (entries : list Entry) (st : Store) (n : string) (v : value) :
  n ∈ map name entries -> cached st n = Some v -> get entries st n = (v, st).
Proof.
  induction entries as [| e older IH]; intros Hn Hc; cbn in *.
  - apply elem_of_nil in Hn. contradiction.
  - destruct (String.eqb (name e) n) eqn:Heq; [rewrite Hc; reflexivity |].
    apply name_eqb_false in Heq.
    apply elem_of_cons in Hn as [Hn | Hn]; [congruence | exact (IH Hn Hc)].
Qed.

Lemma get_caches (entries : list Entry) (st : Store) (n : string) :
  n ∈ map name entries ->
  cached (snd (get entries st n)) n = Some (fst (get entries st n)).
Proof.
  induction entries as [| e older IH]; intros Hn; cbn in *.
  - apply elem_of_nil in Hn. contradiction.
  - destruct (String.eqb (name e) n) eqn:Heq.
    + destruct (cached st n) as [v |] eqn:Hc; [exact Hc |].
      destruct (get_all (get older) (dependencies e) st) as [vs st1].
      apply cached_remember.
    + apply name_eqb_false in Heq.
      apply elem_of_cons in Hn as [Hn | Hn]; [congruence | exact (IH Hn)].
Qed.

Lemma count_occ_absent (l : list string) (n : string) :
  n ∉ l -> count_occ string_dec l n = 0.
Proof. intros Hn. apply count_occ_not_In. intros Hin. apply Hn, list_elem_of_In, Hin. Qed.

(** One read of [n] runs the [compute] of [n] at most once. *)
Lemma get_computes_once (entries : list Entry) (st : Store) (n : string) :
  NoDup (map name entries) ->
  computed_times n (snd (get entries st n)) <= S (computed_times n st).
Proof.
  unfold computed_times.
  induction entries as [| e older IH]; intros Hnd; cbn [get].
  - cbn. lia.
  - cbn [map] in Hnd. apply NoDup_cons in Hnd as [Hfresh Hnd].
    destruct (String.eqb (name e) n) eqn:Heq; [| exact (IH Hnd)].
    apply name_eqb_true in Heq. subst n.
    destruct (cached st (name e)) as [v |]; [cbn; lia |].
    pose proof (get_all_keeps (get older) (get_frame older st)
                  (fun s d Hs => get_frame_trans _ _ _ _ Hs (get_frames older s d))
                  (dependencies e) st (get_frame_refl _ _)) as Hall.
    destruct (get_all (get older) (dependencies e) st) as [vs st1].
    cbn [snd] in *. destruct Hall as (_ & _ & l & Hl & Hnames).
    unfold remember. cbn [invocations]. rewrite Hl, !count_occ_app.
    rewrite (count_occ_absent l).
    + cbn. destruct (string_dec (name e) (name e)); [lia | congruence].
    + intros Hin. apply Hfresh.
      rewrite Forall_forall in Hnames. apply Hnames, Hin.
Qed.

(** A write reaches only the entries that depend on what is written. *)
Lemma reached_depends_on (entries : list Entry) (p n : string) :
  NoDup (map name entries) -> n ∈ reached entries p -> p ∈ depends_on entries n.
Proof.
  revert n. induction entries as [| e older IH]; intros n Hnd Hn; cbn in *.
  - apply elem_of_nil in Hn. contradiction.
  - apply NoDup_cons in Hnd as [Hfresh Hnd].
    assert (Hbelow : n ∈ reached older p -> p ∈
              (if String.eqb (name e) n
               then dependencies e ++ flat_map (depends_on older) (dependencies e)
               else depends_on older n)).
    { intros Hin. destruct (String.eqb (name e) n) eqn:Heq; [| exact (IH n Hnd Hin)].
      apply name_eqb_true in Heq. subst n.
      exfalso. apply Hfresh, (reached_names _ p), Hin. }
    destruct (existsb _ _) eqn:Hex; [| exact (Hbelow Hn)].
    apply elem_of_cons in Hn as [-> | Hn]; [| exact (Hbelow Hn)].
    rewrite String.eqb_refl. apply existsb_exists in Hex as (d & Hd & Hdp).
    apply elem_of_app. apply orb_prop in Hdp as [Hdp | Hdp].
    + apply name_eqb_true in Hdp. subst d. left. apply list_elem_of_In, Hd.
    + apply bool_decide_eq_true in Hdp. right.
      apply list_elem_of_In, in_flat_map. exists d.
      split; [exact Hd | apply list_elem_of_In, IH; assumption].
Qed.

Lemma cached_set (entries : list Entry) (st : Store) (p : string) (v : value)
    (n : string) :
  n ∉ reached entries p -> cached (set entries st p v) n = cached st n.
Proof.
  intros Hn. unfold cached, set. cbn [slots].
  rewrite lookup_invalidate_notin by exact Hn. reflexivity.
Qed.

Lemma run_writes_keep (entries : list Entry) (ws : list (string * value))
    (st : Store) (n : string) :
  NoDup (map name entries) ->
  Forall (fun w => fst w ∉ depends_on entries n) ws ->
  cached (run entries (writes ws) st) n = cached st n
  /\ invocations (run entries (writes ws) st) = invocations st.
Proof.
  intros Hnd Hws. revert st.
  induction Hws as [| [p v] ws Hp Hws IH]; intros st; [split; reflexivity |].
  change (run entries (writes ((p, v) :: ws)) st)
    with (run entries (writes ws) (set entries st p v)).
  destruct (IH (set entries st p v)) as [Hc Hi].
  rewrite Hc, Hi. split; [| reflexivity].
  apply cached_set. intros Hin. apply Hp. cbn.
  apply reached_depends_on; assumption.
Qed.

(** C6. Two reads of a computed entry, with only writes to properties it
    does not depend on in between, run its [compute] at most once: the
    second read hands out the memo of the first, runs no [compute] at all
    and leaves the store as it found it. *)
Theorem second_get_computes_nothing (entries : list Entry) (st : Store)
    (n : string) (ws : list (string * value)) :
  NoDup (map name entries) ->
  n ∈ map name entries ->
  Forall (fun w => fst w ∉ depends_on entries n) ws ->
  let first := get entries st n in
  let st2 := run entries (writes ws) (snd first) in
  let second := get entries st2 n in
  fst second = fst first
  /\ snd second = st2
  /\ invocations (snd second) = invocations (snd first)
  /\ computed_times n (snd second) <= S (computed_times n st).
Proof.
  intros Hnd Hn Hws first st2 second.
  destruct (run_writes_keep entries ws (snd first) n Hnd Hws) as [Hc Hi].
  fold st2 in Hc, Hi.
  assert (Hsecond : second = (fst first, st2)).
  { apply get_cached; [exact Hn |]. rewrite Hc. apply get_caches, Hn. }
  rewrite Hsecond. cbn [fst snd]. repeat split; [exact Hi |].
  unfold computed_times. rewrite Hi. apply get_computes_once, Hnd.
Qed.

End Store.

(* ------------------------------------------------------------------------ *)
(** ** The store of a link view *)

Section LinkViewStore.

Import Cache CacheOps.

Variable loc : value -> value.
Variable currentLocale_language : value.

Lemma link_view_names :
  NoDup (map name (link_view loc currentLocale_language)).
Proof. apply (bool_decide_unpack _). vm_compute. reflexivity. Qed.

(** Read through the store, the two computed properties are the methods of
    the view on its raw properties. *)
Lemma link_view_reads (st : Store) :
  coherent (link_view loc currentLocale_language) st ->
  fst (get (link_view loc currentLocale_language) st "displayBody")
  = displayBody loc (raw st)
  /\ fst (get (link_view loc currentLocale_language) st "hreflang")
     = hreflang currentLocale_language (raw st).
Proof.
  intros Hco. split.
  - rewrite (proj1 (get_correct _ link_view_names st "displayBody" Hco)).
    reflexivity.
  - rewrite (proj1 (get_correct _ link_view_names st "hreflang" Hco)).
    reflexivity.
Qed.

End LinkViewStore.

(** Read, write the body and the switch, read twice: [compute] of
    [displayBody] ran once before the writes and once after them. *)
Example link_view_store_run :
  let entries := Cache.link_view CacheOps.sample_loc (VStr "en") in
  let st := Cache.run entries
              (CacheOps.sample_ops ++ [Cache.Read "displayBody"; Cache.Read "displayBody"])
              (Cache.fresh CacheOps.sample_properties) in
  Cache.invocations st = ["displayBody"; "displayBody"]
  /\ Cache.cached st "displayBody" = Some (VStr "Annual Report").
Proof. vm_compute. split; reflexivity. Qed.

Lemma get_is_never_stale_witness :
  NoDup (map Cache.name (Cache.link_view CacheOps.sample_loc (VStr "en")))
  /\ Cache.coherent (Cache.link_view CacheOps.sample_loc (VStr "en"))
                    (Cache.fresh CacheOps.sample_properties)
  /\ fst (Cache.get (Cache.link_view CacheOps.sample_loc (VStr "en"))
            (Cache.run (Cache.link_view CacheOps.sample_loc (VStr "en"))
               CacheOps.sample_ops (Cache.fresh CacheOps.sample_properties))
            "displayBody")
     = VStr "Annual Report".
Proof.
  assert (Hnd : NoDup (map Cache.name (Cache.link_view CacheOps.sample_loc (VStr "en"))))
    by (apply (bool_decide_unpack _); vm_compute; reflexivity).
  pose proof (fresh_coherent (Cache.link_view CacheOps.sample_loc (VStr "en"))
                CacheOps.sample_properties) as Hco.
  split; [exact Hnd | split; [exact Hco |]].
  destruct (get_is_never_stale [] (Cache.displayBody_entry CacheOps.sample_loc)
              [Cache.hreflang_entry (VStr "en")]
              (Cache.fresh CacheOps.sample_properties) CacheOps.sample_ops Hnd Hco)
    as [Hval _].
  etransitivity; [exact Hval |]. vm_compute. reflexivity.
Defined.

Lemma second_get_computes_nothing_witness :
  NoDup (map Cache.name (Cache.link_view CacheOps.sample_loc (VStr "en")))
  /\ "displayBody" ∈ map Cache.name (Cache.link_view CacheOps.sample_loc (VStr "en"))
  /\ Forall (fun w => fst w ∉ Cache.depends_on
                                (Cache.link_view CacheOps.sample_loc (VStr "en"))
                                "displayBody")
            CacheOps.sample_writes
  /\ Cache.computed_times "displayBody"
       (snd (Cache.get (Cache.link_view CacheOps.sample_loc (VStr "en"))
               (Cache.run (Cache.link_view CacheOps.sample_loc (VStr "en"))
                  (Cache.writes CacheOps.sample_writes)
                  (snd (Cache.get (Cache.link_view CacheOps.sample_loc (VStr "en"))
                          (Cache.fresh CacheOps.sample_properties) "displayBody")))
               "displayBody"))
     <= 1.
Proof.
  assert (Hnd : NoDup (map Cache.name (Cache.link_view CacheOps.sample_loc (VStr "en"))))
    by (apply (bool_decide_unpack _); vm_compute; reflexivity).
  assert (Hn : "displayBody"
               ∈ map Cache.name (Cache.link_view CacheOps.sample_loc (VStr "en")))
    by (apply (bool_decide_unpack _); vm_compute; reflexivity).
  assert (Hws : Forall (fun w => fst w ∉ Cache.depends_on
                                   (Cache.link_view CacheOps.sample_loc (VStr "en"))
                                   "displayBody")
                  CacheOps.sample_writes)
    by (apply (bool_decide_unpack _); vm_compute; reflexivity).
  split; [exact Hnd | split; [exact Hn | split; [exact Hws |]]].
  exact (proj2 (proj2 (proj2
    (second_get_computes_nothing
       (Cache.link_view CacheOps.sample_loc (VStr "en"))
       (Cache.fresh CacheOps.sample_properties) "displayBody"
       CacheOps.sample_writes Hnd Hn Hws)))).
Defined.

Lemma update_rewrites_every_field_witness :
  (forall p, p <> "displayToolTip" ->
             get Sync.resume_link p = get Sync.resume_link_retitled p)
  /\ map target_of (update Host.escapeHTML Sync.resume_link_retitled)
     = map fst field_table
  /\ map payload_of (update Host.escapeHTML Sync.resume_link_retitled)
     = [ VStr "Resume - Tyler Keating.pdf";
         VStr "/users/22/cur-resume.pdf";
         VStr "en";
         VStr "Resume &lt;latest&gt;";
         VStr "Current Resume" ]
  /\ (forall n k, k <> "title" ->
        attributes (jq_run (update Host.escapeHTML Sync.resume_link_retitled)
                      (jq_run (update Host.escapeHTML Sync.resume_link) n)) !! k
        = attributes (jq_run (update Host.escapeHTML Sync.resume_link) n) !! k).
Proof.
  split; [exact resume_links_differ_in_tool_tip |].
  destruct (update_rewrites_every_field Host.escapeHTML Sync.resume_link
              Sync.resume_link_retitled resume_links_differ_in_tool_tip)
    as (Hcalls & Hvalues & _ & Hattrs & _).
  split; [exact Hcalls |]. split; [| exact Hattrs].
  etransitivity; [exact Hvalues |]. vm_compute. reflexivity.
Defined.

(* ------------------------------------------------------------------------ *)
(** ** More on the cold path *)

Section ColdPath.

Import Sync View.

Variable escapeHTML : value -> value.

Lemma joined_None (v : value) : joined v = None <-> array_or_falsy v = false.
Proof.
  unfold joined, array_or_falsy.
  destruct v as [| | [|] | s | items]; cbn; try (split; congruence).
  destruct (String.eqb s ""); cbn; split; congruence.
Qed.

(** X1. [render] throws exactly when [ping] or [rel] holds a truthy value
    that is not an array, the only values on which [.join(' ')] is called
    without being there. *)
Theorem render_throws_iff (this : gmap string value) :
  render escapeHTML this = None <-> renderable this = false.
Proof.
  unfold render, renderable. cbv zeta. split.
  - destruct (joined (get this "ping")) as [ping' |] eqn:Hp.
    + destruct (joined (get this "rel")) as [rel' |] eqn:Hr; [discriminate |].
      intros _. apply joined_None in Hr. rewrite Hr. apply andb_false_r.
    + intros _. apply joined_None in Hp. rewrite Hp. reflexivity.
  - intros [Hp | Hr]%andb_false_iff.
    + apply joined_None in Hp. rewrite Hp. reflexivity.
    + apply joined_None in Hr. rewrite Hr.
      destruct (joined (get this "ping")); reflexivity.
Qed.

(** X2. A view that renders gets a [ping] and a [rel] attribute exactly
    when the property is an array, holding its items separated by single
    spaces; an empty array gives an empty attribute, a falsy value none. *)
Theorem render_joins_ping_and_rel (this : gmap string value)
    (calls : list context_call) :
  render escapeHTML this = Some calls ->
  attributes (element_of calls) !! "ping" = spaced (get this "ping")
  /\ attributes (element_of calls) !! "rel" = spaced (get this "rel")
  /\ attr_of calls "ping" = Some (from_option VStr VNull (spaced (get this "ping")))
  /\ attr_of calls "rel" = Some (from_option VStr VNull (spaced (get this "rel"))).
Proof.
  intros Hrender.
  destruct (render_Some _ _ _ Hrender) as (ping' & rel' & Hp & Hr & ->).
  assert (Hjoin : forall v t, joined v = Some t ->
            t = from_option VStr VNull (spaced v) /\ attr_text t = spaced v).
  { intros v t. unfold joined.
    destruct v as [| | [|] | s | items]; cbn; try discriminate;
      try (intros [= <-]; split; reflexivity).
    destruct (String.eqb s ""); cbn; [| discriminate].
    intros [= <-]. split; reflexivity. }
  destruct (Hjoin _ _ Hp) as [-> Hpt]. destruct (Hjoin _ _ Hr) as [-> Hrt].
  unfold element_of. cbn [fold_left context_step fst snd].
  unfold set_content. cbn [attributes content].
  rewrite !lookup_set_attribute.
  repeat split; repeat case_decide; try discriminate; try congruence.
Qed.

(** X3. [render] gives the element no attribute besides the eight of its
    attribute hash. *)
Theorem render_sets_no_other_attribute (this : gmap string value)
    (calls : list context_call) (k : string) :
  render escapeHTML this = Some calls ->
  k ∉ rendered_attributes ->
  attributes (element_of calls) !! k = None.
Proof.
  intros Hrender Hk.
  destruct (render_Some _ _ _ Hrender) as (ping' & rel' & _ & _ & ->).
  unfold element_of. cbn [fold_left context_step fst snd].
  unfold set_content. cbn [attributes content].
  unfold rendered_attributes in Hk.
  repeat (apply not_elem_of_cons in Hk as [? Hk]).
  rewrite !lookup_set_attribute.
  rewrite !decide_False by congruence.
  apply lookup_empty.
Qed.


End ColdPath.

(* ------------------------------------------------------------------------ *)
(** ** More on the warm path *)

Section WarmPath.

Import Sync View.

Variable escapeHTML : value -> value.

Lemma written_defined (v : value) (old : option string) :
  v <> VUndefined -> written v old = attr_text v.
Proof. destruct v; [congruence | reflexivity ..]. Qed.

Lemma defined_fields_inv (this : gmap string value) :
  defined_fields escapeHTML this ->
  get this "fileName" <> VUndefined
  /\ get this "href" <> VUndefined
  /\ get this "hreflang" <> VUndefined
  /\ escaped escapeHTML (get this "displayToolTip") (get this "escapeHTML") <> VUndefined
  /\ escaped escapeHTML (get this "displayBody") (get this "escapeHTML") <> VUndefined.
Proof.
  unfold defined_fields, update. cbv zeta. intros H.
  repeat (apply Forall_cons in H as [? H]). cbn [payload_of] in *. auto.
Qed.

(** After [update] with values that are all defined, the four attributes
    and the content are what the snapshot says, whatever they were. *)
Lemma lookup_update_defined (this : gmap string value) (n : Node) :
  defined_fields escapeHTML this ->
  attributes (jq_run (update escapeHTML this) n) !! "download"
  = attr_text (get this "fileName")
  /\ attributes (jq_run (update escapeHTML this) n) !! "href"
     = attr_text (get this "href")
  /\ attributes (jq_run (update escapeHTML this) n) !! "hreflang"
     = attr_text (get this "hreflang")
  /\ attributes (jq_run (update escapeHTML this) n) !! "title"
     = attr_text (escaped escapeHTML (get this "displayToolTip") (get this "escapeHTML"))
  /\ content (jq_run (update escapeHTML this) n)
     = (let v := escaped escapeHTML (get this "displayBody") (get this "escapeHTML") in
        if nullish v then "" else to_text v).
Proof.
  intros (Hd & Hh & Hl & Ht & Hb)%defined_fields_inv.
  rewrite !lookup_update, content_update.
  repeat split; repeat case_decide; try discriminate;
    try (apply written_defined; assumption).
  all: cbv zeta; destruct (escaped escapeHTML (get this "displayBody") _);
    congruence.
Qed.

(** X6. The last [update] wins: when every value of the later snapshot is
    defined, the element after two updates is the element after the later
    one alone. *)
Theorem last_update_wins (earlier later : gmap string value) (n : Node) :
  defined_fields escapeHTML later ->
  jq_run (update escapeHTML later) (jq_run (update escapeHTML earlier) n)
  = jq_run (update escapeHTML later) n.
Proof.
  intros (Hd & Hh & Hl & Ht & Hb)%defined_fields_inv.
  apply node_eq.
  - apply map_eq. intros j. rewrite !lookup_update.
    repeat case_decide; rewrite ?written_defined by assumption; reflexivity.
  - rewrite !content_update.
    destruct (escaped escapeHTML (get later "displayBody") _); congruence.
Qed.

(** X7. The two paths agree on the element: [update] with a snapshot whose
    values are all defined brings any element to the [download], [href],
    [hreflang] and [title] attributes and to the content that [render]
    gives a new element from the same snapshot. *)
Theorem update_reaches_what_render_builds (this : gmap string value)
    (calls : list context_call) (n : Node) :
  render escapeHTML this = Some calls ->
  defined_fields escapeHTML this ->
  Forall (fun k => attributes (jq_run (update escapeHTML this) n) !! k
                   = attributes (element_of calls) !! k)
         ["download"; "href"; "hreflang"; "title"]
  /\ content (jq_run (update escapeHTML this) n) = content (element_of calls).
Proof.
  intros Hrender Hdef.
  destruct (lookup_element_of _ _ _ Hrender) as (Rd & Rh & Rl & Rt & Rc).
  destruct (lookup_update_defined this n Hdef) as (Ud & Uh & Ul & Ut & Uc).
  split; [| congruence].
  repeat constructor; congruence.
Qed.

(** X8. A [fileName] of [null], the value the class declares, leaves the
    element without a [download] attribute on both paths: [render] gives
    none and [update] removes the one that is there. *)
Theorem null_file_name_means_no_download (this : gmap string value)
    (calls : list context_call) (n : Node) :
  get this "fileName" = VNull ->
  render escapeHTML this = Some calls ->
  attributes (element_of calls) !! "download" = None
  /\ attributes (jq_run (update escapeHTML this) n) !! "download" = None.
Proof.
  intros Hnull Hrender.
  destruct (lookup_element_of _ _ _ Hrender) as (Rd & _).
  rewrite Rd, lookup_update, Hnull.
  split; [reflexivity |].
  repeat case_decide; try discriminate; try congruence; reflexivity.
Qed.

(** X9. [update] is determined by the display properties and the
    [escapeHTML] flag: two views that agree on those are updated by the
    same calls, whatever else they hold. *)
Theorem display_properties_determine_update (this other : gmap string value) :
  (forall p, p ∈ displayProperties -> get this p = get other p) ->
  get this "escapeHTML" = get other "escapeHTML" ->
  update escapeHTML this = update escapeHTML other.
Proof.
  intros Hsame Hflag. unfold update. cbv zeta.
  rewrite Hflag, !Hsame by (unfold displayProperties; set_solver).
  reflexivity.
Qed.

End WarmPath.

(* ------------------------------------------------------------------------ *)
(** ** From the raw properties to the element *)

Section WholeView.

Import Sync View.

Variable loc : value -> value.
Variable currentLocale_language : value.
Variable escapeHTML : value -> value.

Lemma renderable_snapshot (raw : gmap string value) :
  renderable (snapshot loc currentLocale_language raw) = renderable raw.
Proof. unfold renderable, snapshot. get_simpl. reflexivity. Qed.

Lemma get_snapshot_displayBody (raw : gmap string value) :
  get (snapshot loc currentLocale_language raw) "displayBody" = displayBody loc raw.
Proof. unfold snapshot. get_simpl. reflexivity. Qed.

Lemma get_snapshot_hreflang (raw : gmap string value) :
  get (snapshot loc currentLocale_language raw) "hreflang"
  = hreflang currentLocale_language raw.
Proof. unfold snapshot. get_simpl. reflexivity. Qed.

Lemma get_snapshot_escapeHTML (raw : gmap string value) :
  get (snapshot loc currentLocale_language raw) "escapeHTML" = get raw "escapeHTML".
Proof. unfold snapshot. get_simpl. reflexivity. Qed.

(** X10. A view whose [body] is falsy ([null], [undefined], the empty
    string) has the empty string as its content on both paths, whatever
    [localize] and [escapeHTML] are: [null] never reaches the element. *)
Theorem falsy_body_renders_empty (raw : gmap string value) :
  truthy (get raw "body") = false ->
  renderable raw = true ->
  pushed <$> render escapeHTML (snapshot loc currentLocale_language raw)
  = Some [VStr ""]
  /\ sent_to (update escapeHTML (snapshot loc currentLocale_language raw)) "html"
     = Some (VStr "").
Proof.
  intros Hbody Hraw.
  assert (Hdisplay : displayBody loc raw = VStr "")
    by (rewrite displayBody_cases, Hbody; reflexivity).
  split.
  - destruct (render_renderable escapeHTML (snapshot loc currentLocale_language raw))
      as (ping' & rel' & _ & _ & ->); [rewrite renderable_snapshot; exact Hraw |].
    cbn [fmap option_fmap option_map pushed flat_map app].
    rewrite get_snapshot_displayBody, Hdisplay. reflexivity.
  - unfold update, sent_to. cbv zeta. cbn [List.find target_of String.eqb Ascii.eqb
      Bool.eqb fmap option_fmap option_map payload_of].
    rewrite get_snapshot_displayBody, Hdisplay. reflexivity.
Qed.

(** X11. Every link has an [hreflang] attribute as long as the current
    locale has a language: [render] sets it and [update] sets it again,
    to [language] when that is truthy and to the locale's otherwise. *)
Theorem hreflang_attribute_is_always_there (raw : gmap string value)
    (calls : list context_call) (n : Node) :
  nullish currentLocale_language = false ->
  render escapeHTML (snapshot loc currentLocale_language raw) = Some calls ->
  attributes (element_of calls) !! "hreflang"
  = Some (to_text (hreflang currentLocale_language raw))
  /\ attributes (jq_run (update escapeHTML (snapshot loc currentLocale_language raw)) n)
       !! "hreflang"
     = Some (to_text (hreflang currentLocale_language raw)).
Proof.
  intros Hlocale Hrender.
  assert (Hnn : nullish (hreflang currentLocale_language raw) = false).
  { unfold hreflang, js_or. cbv zeta.
    destruct (truthy (get raw "language")) eqn:Hl; [| exact Hlocale].
    destruct (get raw "language"); try discriminate Hl; reflexivity. }
  destruct (lookup_element_of _ _ _ Hrender) as (_ & _ & Rl & _).
  rewrite Rl, lookup_update, get_snapshot_hreflang.
  split.
  - unfold attr_text. rewrite Hnn. reflexivity.
  - repeat case_decide; try discriminate; try congruence.
    destruct (hreflang currentLocale_language raw); try discriminate Hnn; reflexivity.
Qed.

(** X12. A view that leaves [ping] and [rel] as the class declares them
    always renders, and its element has neither attribute. *)
Theorem declared_ping_and_rel_render (raw : gmap string value) :
  get raw "ping" = get defaults "ping" ->
  get raw "rel" = get defaults "rel" ->
  exists calls,
    render escapeHTML (snapshot loc currentLocale_language raw) = Some calls
    /\ attributes (element_of calls) !! "ping" = None
    /\ attributes (element_of calls) !! "rel" = None.
Proof.
  intros Hping Hrel.
  change (get defaults "ping") with VNull in Hping.
  change (get defaults "rel") with VNull in Hrel.
  destruct (render_renderable escapeHTML (snapshot loc currentLocale_language raw))
    as (ping' & rel' & _ & _ & Hrender).
  { rewrite renderable_snapshot. unfold renderable. rewrite Hping, Hrel. reflexivity. }
  eexists. split; [exact Hrender |].
  destruct (render_joins_ping_and_rel _ _ _ Hrender) as (Hp & Hr & _).
  rewrite Hp, Hr. unfold snapshot. get_simpl. rewrite Hping, Hrel.
  split; reflexivity.
Qed.

(** X13. [SC.String.loc] matters only to a view that has a truthy [body]
    and a truthy [localize]: for every other view [displayBody] is the
    same under any two localisations. *)
Theorem displayBody_localizes_only_on_request (loc' : value -> value)
    (this : gmap string value) :
  truthy (get this "body") && truthy (get this "localize") = false ->
  displayBody loc this = displayBody loc' this.
Proof.
  intros Hoff. rewrite !displayBody_cases.
  destruct (truthy (get this "body")); [| reflexivity].
  cbn [andb] in Hoff. rewrite Hoff. reflexivity.
Qed.

End WholeView.

Lemma escape_text_markup_free (s : string) : View.markup_free (escape_text s) = true.
Proof.
  induction s as [| c rest IH]; [reflexivity |].
  cbn [escape_text].
  destruct (Ascii.eqb c "&") eqn:Hamp; [exact IH |].
  destruct (Ascii.eqb c "<") eqn:Hlt; [exact IH |].
  destruct (Ascii.eqb c ">") eqn:Hgt; [exact IH |].
  change (View.markup_free (String c (escape_text rest)) = true).
  cbn [View.markup_free]. rewrite Hlt, Hgt. exact IH.
Qed.

(** X14. Escaping is on unless a view turns it off: with [escapeHTML] as
    the class declares it and localisation off, a text body is pushed with
    its markup characters turned into entities, so that neither ["<"] nor
    [">"] is left in the content. *)
Theorem body_is_escaped_by_default (loc : value -> value)
    (currentLocale_language : value) (raw : gmap string value) (s : string) :
  get raw "escapeHTML" = get View.defaults "escapeHTML" ->
  get raw "body" = VStr s ->
  truthy (get raw "localize") = false ->
  Sync.renderable raw = true ->
  Sync.pushed <$> render Host.escapeHTML (View.snapshot loc currentLocale_language raw)
  = Some [VStr (escape_text s)]
  /\ View.markup_free (escape_text s) = true.
Proof.
  intros Hflag Hbody Hloc Hraw.
  change (get View.defaults "escapeHTML") with (VBool true) in Hflag.
  split; [| apply escape_text_markup_free].
  destruct (render_renderable Host.escapeHTML
              (View.snapshot loc currentLocale_language raw))
    as (ping' & rel' & _ & _ & ->); [rewrite renderable_snapshot; exact Hraw |].
  cbn [fmap option_fmap option_map Sync.pushed flat_map app].
  rewrite get_snapshot_displayBody, get_snapshot_escapeHTML, Hflag.
  rewrite displayBody_cases, Hbody, Hloc, escaped_cases.
  destruct s; reflexivity.
Qed.

(* ------------------------------------------------------------------------ *)
(** ** The declared dependencies of the two computed properties *)

Section Dependencies.

Import Cache.

Variable loc : value -> value.
Variable currentLocale_language : value.

(** X15. What a write invalidates on a link view, by the dependencies the
    two computed properties declare: [localize] reaches both, [body] only
    [displayBody], [language] only [hreflang], and any other property
    neither. *)
Theorem link_view_invalidation (p : string) :
  reached (link_view loc currentLocale_language) p
  = if decide (p = "localize") then ["displayBody"; "hreflang"]
    else if decide (p = "body") then ["displayBody"]
    else if decide (p = "language") then ["hreflang"]
    else [].
Proof.
  unfold link_view. cbn [reached displayBody_entry hreflang_entry dependencies
                         name existsb].
  destruct (String.eqb_spec "localize" p) as [<- | Hloc]; [reflexivity |].
  destruct (String.eqb_spec "body" p) as [<- | Hbody]; [reflexivity |].
  destruct (String.eqb_spec "language" p) as [<- | Hlang]; [reflexivity |].
  repeat (rewrite decide_False by congruence). reflexivity.
Qed.

Lemma cached_reached (entries : list Entry) (st : Store) (p : string) (v : value)
    (n : string) :
  n ∈ reached entries p -> cached (set entries st p v) n = None.
Proof.
  intros Hn. unfold cached, set. cbn [slots].
  destruct (invalidate (reached entries p) (slots st) !! n) as [s |] eqn:Hs;
    [| reflexivity].
  pose proof (lookup_invalidate_in _ _ _ _ Hn Hs) as Hv.
  destruct s as [[w |] [|]]; cbn in *; try reflexivity; discriminate Hv.
Qed.

(** X16. [hreflang] declares [localize] as a dependency and never reads
    it: a write to [localize] cannot change what [hreflang] is, and yet
    the next read runs its [compute] once more. *)
Theorem localize_write_recomputes_hreflang (st : Store) (v : value) :
  coherent (link_view loc currentLocale_language) st ->
  let entries := link_view loc currentLocale_language in
  let first := get entries st "hreflang" in
  let st2 := set entries (snd first) "localize" v in
  let second := get entries st2 "hreflang" in
  fst second = fst first
  /\ computed_times "hreflang" (snd second)
     = S (computed_times "hreflang" (snd first)).
Proof.
  intros Hco entries first st2 second.
  pose proof (link_view_names loc currentLocale_language) as Hnd.
  destruct (get_correct entries Hnd st "hreflang" Hco) as [Hv1 Hco1].
  fold first in Hv1, Hco1.
  pose proof (set_coherent entries (snd first) "localize" v Hco1) as Hco2.
  fold st2 in Hco2.
  destruct (get_correct entries Hnd st2 "hreflang" Hco2) as [Hv2 _].
  fold second in Hv2.
  assert (Hnone : cached st2 "hreflang" = None).
  { apply cached_reached. unfold entries.
    rewrite link_view_invalidation, decide_True by reflexivity.
    apply elem_of_cons. right. apply elem_of_cons. left. reflexivity. }
  split.
  - rewrite Hv1, Hv2.
    destruct (get_frames entries st "hreflang") as (Hraw & _). fold first in Hraw.
    unfold st2, set. cbn [raw]. rewrite Hraw.
    change (hreflang currentLocale_language (<["localize" := v]> (raw st))
            = hreflang currentLocale_language (raw st)).
    unfold hreflang. rewrite get_insert_ne by discriminate. reflexivity.
  - unfold second, entries, link_view. cbn [get].
    change (String.eqb (name (displayBody_entry loc)) "hreflang") with false.
    change (String.eqb (name (hreflang_entry currentLocale_language)) "hreflang")
      with true.
    cbv iota. rewrite Hnone. cbn [get_all get dependencies hreflang_entry].
    unfold computed_times, remember. cbn [snd invocations].
    rewrite count_occ_app. cbn. lia.
Qed.

End Dependencies.

(* ------------------------------------------------------------------------ *)
(** ** The extra facts on sample links *)

Lemma render_joins_ping_and_rel_witness :
  render Host.escapeHTML (View.snapshot (fun v => v) (VStr "en") View.tracked_link)
  = Some View.tracked_link_calls
  /\ attributes (element_of View.tracked_link_calls) !! "ping"
     = Some "http://a.example/ http://b.example/"
  /\ attributes (element_of View.tracked_link_calls) !! "rel" = None.
Proof.
  assert (H : render Host.escapeHTML
                (View.snapshot (fun v => v) (VStr "en") View.tracked_link)
              = Some View.tracked_link_calls) by (vm_compute; reflexivity).
  split; [exact H |].
  destruct (render_joins_ping_and_rel Host.escapeHTML _ _ H) as (Hp & Hr & _).
  split; [rewrite Hp | rewrite Hr]; vm_compute; reflexivity.
Defined.

Lemma render_sets_no_other_attribute_witness :
  render Host.escapeHTML Sync.resume_link = Some Sync.resume_link_calls
  /\ ("class" ∉ View.rendered_attributes)
  /\ attributes (element_of Sync.resume_link_calls) !! "class" = None.
Proof.
  assert (H : render Host.escapeHTML Sync.resume_link = Some Sync.resume_link_calls)
    by (vm_compute; reflexivity).
  assert (Hk : "class" ∉ View.rendered_attributes)
    by (apply (bool_decide_unpack _); vm_compute; reflexivity).
  split; [exact H | split; [exact Hk |]].
  exact (render_sets_no_other_attribute Host.escapeHTML Sync.resume_link
           Sync.resume_link_calls "class" H Hk).
Defined.


Lemma last_update_wins_witness :
  View.defined_fields Host.escapeHTML Sync.resume_link_retitled
  /\ jq_run (update Host.escapeHTML Sync.resume_link_retitled)
       (jq_run (update Host.escapeHTML Sync.resume_link) empty_element)
     = jq_run (update Host.escapeHTML Sync.resume_link_retitled) empty_element.
Proof.
  assert (H : View.defined_fields Host.escapeHTML Sync.resume_link_retitled)
    by (apply (bool_decide_unpack _); vm_compute; reflexivity).
  split; [exact H |].
  exact (last_update_wins Host.escapeHTML Sync.resume_link
           Sync.resume_link_retitled empty_element H).
Defined.

Lemma update_reaches_what_render_builds_witness :
  render Host.escapeHTML Sync.resume_link = Some Sync.resume_link_calls
  /\ View.defined_fields Host.escapeHTML Sync.resume_link
  /\ content (jq_run (update Host.escapeHTML Sync.resume_link) empty_element)
     = content (element_of Sync.resume_link_calls).
Proof.
  assert (H : render Host.escapeHTML Sync.resume_link = Some Sync.resume_link_calls)
    by (vm_compute; reflexivity).
  assert (Hdef : View.defined_fields Host.escapeHTML Sync.resume_link)
    by (apply (bool_decide_unpack _); vm_compute; reflexivity).
  split; [exact H | split; [exact Hdef |]].
  exact (proj2 (update_reaches_what_render_builds Host.escapeHTML Sync.resume_link
                  Sync.resume_link_calls empty_element H Hdef)).
Defined.

Lemma null_file_name_means_no_download_witness :
  get (View.snapshot (fun v => v) (VStr "en") View.tracked_link) "fileName" = VNull
  /\ render Host.escapeHTML (View.snapshot (fun v => v) (VStr "en") View.tracked_link)
     = Some View.tracked_link_calls
  /\ attributes (element_of View.tracked_link_calls) !! "download" = None
  /\ attributes (jq_run (update Host.escapeHTML
                           (View.snapshot (fun v => v) (VStr "en") View.tracked_link))
                   (element_of Sync.resume_link_calls)) !! "download" = None.
Proof.
  assert (Hnull : get (View.snapshot (fun v => v) (VStr "en") View.tracked_link)
                      "fileName" = VNull) by (vm_compute; reflexivity).
  assert (H : render Host.escapeHTML
                (View.snapshot (fun v => v) (VStr "en") View.tracked_link)
              = Some View.tracked_link_calls) by (vm_compute; reflexivity).
  split; [exact Hnull | split; [exact H |]].
  exact (null_file_name_means_no_download Host.escapeHTML _ View.tracked_link_calls
           (element_of Sync.resume_link_calls) Hnull H).
Defined.

Lemma retargeted_link_display_properties (p : string) :
  p ∈ View.displayProperties -> get Sync.resume_link p = get View.retargeted_link p.
Proof.
  intros Hp. unfold View.retargeted_link. rewrite get_insert_ne; [reflexivity |].
  intros <-. apply list_elem_of_In in Hp. cbn in Hp.
  repeat (destruct Hp as [Hp | Hp]; [discriminate Hp |]). exact Hp.
Qed.

Lemma display_properties_determine_update_witness :
  (forall p, p ∈ View.displayProperties ->
             get Sync.resume_link p = get View.retargeted_link p)
  /\ get Sync.resume_link "escapeHTML" = get View.retargeted_link "escapeHTML"
  /\ update Host.escapeHTML Sync.resume_link
     = update Host.escapeHTML View.retargeted_link.
Proof.
  assert (Hflag : get Sync.resume_link "escapeHTML"
                  = get View.retargeted_link "escapeHTML") by (vm_compute; reflexivity).
  split; [exact retargeted_link_display_properties | split; [exact Hflag |]].
  exact (display_properties_determine_update Host.escapeHTML Sync.resume_link
           View.retargeted_link retargeted_link_display_properties Hflag).
Defined.

Lemma falsy_body_renders_empty_witness :
  truthy (get View.defaults "body") = false
  /\ Sync.renderable View.defaults = true
  /\ Sync.pushed <$> render Host.escapeHTML
                       (View.snapshot (fun v => v) (VStr "en") View.defaults)
     = Some [VStr ""]
  /\ Sync.sent_to (update Host.escapeHTML
                     (View.snapshot (fun v => v) (VStr "en") View.defaults)) "html"
     = Some (VStr "").
Proof.
  assert (Hbody : truthy (get View.defaults "body") = false) by (vm_compute; reflexivity).
  assert (Hraw : Sync.renderable View.defaults = true) by (vm_compute; reflexivity).
  split; [exact Hbody | split; [exact Hraw |]].
  exact (falsy_body_renders_empty (fun v => v) (VStr "en") Host.escapeHTML
           View.defaults Hbody Hraw).
Defined.

Lemma hreflang_attribute_is_always_there_witness :
  nullish (VStr "en") = false
  /\ render Host.escapeHTML (View.snapshot (fun v => v) (VStr "en") View.tracked_link)
     = Some View.tracked_link_calls
  /\ attributes (element_of View.tracked_link_calls) !! "hreflang" = Some "en".
Proof.
  assert (Hlocale : nullish (VStr "en") = false) by reflexivity.
  assert (H : render Host.escapeHTML
                (View.snapshot (fun v => v) (VStr "en") View.tracked_link)
              = Some View.tracked_link_calls) by (vm_compute; reflexivity).
  split; [exact Hlocale | split; [exact H |]].
  destruct (hreflang_attribute_is_always_there (fun v => v) (VStr "en")
              Host.escapeHTML View.tracked_link View.tracked_link_calls
              empty_element Hlocale H) as [Hcold _].
  etransitivity; [exact Hcold |]. vm_compute. reflexivity.
Defined.

Lemma declared_ping_and_rel_render_witness :
  get View.report_link "ping" = get View.defaults "ping"
  /\ get View.report_link "rel" = get View.defaults "rel"
  /\ exists calls,
       render Host.escapeHTML (View.snapshot (fun v => v) (VStr "en") View.report_link)
       = Some calls
       /\ attributes (element_of calls) !! "ping" = None
       /\ attributes (element_of calls) !! "rel" = None.
Proof.
  assert (Hping : get View.report_link "ping" = get View.defaults "ping")
    by (vm_compute; reflexivity).
  assert (Hrel : get View.report_link "rel" = get View.defaults "rel")
    by (vm_compute; reflexivity).
  split; [exact Hping | split; [exact Hrel |]].
  exact (declared_ping_and_rel_render (fun v => v) (VStr "en") Host.escapeHTML
           View.report_link Hping Hrel).
Defined.

Lemma displayBody_localizes_only_on_request_witness :
  truthy (get View.report_link "body") && truthy (get View.report_link "localize")
  = false
  /\ displayBody CacheOps.sample_loc View.report_link
     = displayBody (fun v => v) View.report_link.
Proof.
  assert (Hoff : truthy (get View.report_link "body")
                 && truthy (get View.report_link "localize") = false)
    by (vm_compute; reflexivity).
  split; [exact Hoff |].
  exact (displayBody_localizes_only_on_request CacheOps.sample_loc (fun v => v)
           View.report_link Hoff).
Defined.

Lemma body_is_escaped_by_default_witness :
  get View.report_link "escapeHTML" = get View.defaults "escapeHTML"
  /\ get View.report_link "body" = VStr "<Annual Report>"
  /\ truthy (get View.report_link "localize") = false
  /\ Sync.renderable View.report_link = true
  /\ Sync.pushed <$> render Host.escapeHTML
                       (View.snapshot (fun v => v) (VStr "en") View.report_link)
     = Some [VStr (escape_text "<Annual Report>")]
  /\ View.markup_free (escape_text "<Annual Report>") = true.
Proof.
  assert (Hflag : get View.report_link "escapeHTML" = get View.defaults "escapeHTML")
    by (vm_compute; reflexivity).
  assert (Hbody : get View.report_link "body" = VStr "<Annual Report>")
    by (vm_compute; reflexivity).
  assert (Hloc : truthy (get View.report_link "localize") = false)
    by (vm_compute; reflexivity).
  assert (Hraw : Sync.renderable View.report_link = true) by (vm_compute; reflexivity).
  split; [exact Hflag | split; [exact Hbody | split; [exact Hloc | split; [exact Hraw |]]]].
  exact (body_is_escaped_by_default (fun v => v) (VStr "en") View.report_link
           "<Annual Report>" Hflag Hbody Hloc Hraw).
Defined.

Lemma localize_write_recomputes_hreflang_witness :
  Cache.coherent (Cache.link_view CacheOps.sample_loc (VStr "en"))
                 (Cache.fresh CacheOps.sample_properties)
  /\ Cache.computed_times "hreflang"
       (snd (Cache.get (Cache.link_view CacheOps.sample_loc (VStr "en"))
               (Cache.set (Cache.link_view CacheOps.sample_loc (VStr "en"))
                  (snd (Cache.get (Cache.link_view CacheOps.sample_loc (VStr "en"))
                          (Cache.fresh CacheOps.sample_properties) "hreflang"))
                  "localize" (VBool false))
               "hreflang"))
     = 2.
Proof.
  pose proof (fresh_coherent (Cache.link_view CacheOps.sample_loc (VStr "en"))
                CacheOps.sample_properties) as Hco.
  split; [exact Hco |].
  destruct (localize_write_recomputes_hreflang CacheOps.sample_loc (VStr "en")
              (Cache.fresh CacheOps.sample_properties) (VBool false) Hco)
    as [_ Hcount].
  etransitivity; [exact Hcount |]. vm_compute. reflexivity.
Defined.
